(** * Search screen of mattermost-mobile: submission and result aggregation

    A shallow embedding of the search screen component
    ([SearchScreen], file [src/unnamed/part_000]) and of the gallery
    ordering of the file results pane ([FileResults], file
    [src/unnamed/part_001]).

    React state is a record; every [setX] of a [useState] pair is a
    field update.  A handler is a computation over the screen state and
    the log of calls made to collaborators (search services, history
    store, collapsible header).  An [async] handler is cut at its [await]:
    the part before it runs when the handler is called, the part after
    it when the awaited promise settles. *)

From stdpp Require Import base strings list gmap sorting.
From Stdlib Require Import ZArith Lia.

(** ** Shared data *)

(** [FileInfo] as the two components read it: every field they touch is
    optional in the client types ([id?], [create_at?] guarded by [||] and
    truthiness tests in the source). *)
Record FileInfo := mkFileInfo {
  id : option string;
  create_at : option Z;
  channel_id : option string;
  user_id : option string;
  mime_type : string
}.

(** Modelled from the spec: the enumeration [FileFilters] of [@utils/file]
    is outside the source files; the specification lists its closed set of
    values. *)
Inductive FileFilter :=
| ALL | DOCUMENTS | SPREADSHEETS | PRESENTATIONS | CODE
| IMAGES | VIDEOS | AUDIO | OTHER.

(** [TabTypes] of [@utils/search]. *)
Inductive TabType := MESSAGES | FILES.

(** JavaScript truthiness of a string: every string but the empty one. *)
Definition truthy (s : string) : bool :=
  match s with
  | EmptyString => false
  | String _ _ => true
  end.

(** [s.length] of a JavaScript string, counted on the UTF-8 bytes that
    stand for it here: a code point of the basic plane is one UTF-16 unit,
    a code point beyond it (a four-byte sequence) is two, and continuation
    bytes count nothing. *)
Definition utf16_units (a : Stdlib.Strings.Ascii.ascii) : nat :=
  let n := Stdlib.Strings.Ascii.nat_of_ascii a in
  if n <? 128 then 1 else if n <? 192 then 0 else if n <? 240 then 1 else 2.

Fixpoint js_length (s : string) : nat :=
  match s with
  | EmptyString => 0
  | String a s' => utf16_units a + js_length s'
  end.

(** [acc[key] = value] on an object created by the literal [{}], for a
    primitive [value] (a number, a string): an own property under [key],
    except for the key ["__proto__"], which is the accessor inherited from
    [Object.prototype]: its setter ignores a primitive and nothing is
    stored. *)
Definition object_set {V} (key : string) (value : V) (acc : gmap string V)
  : gmap string V :=
  if decide (key = "__proto__") then acc else <[key := value]> acc.

(** [xs?.length ? xs : dflt], for an array that may be [undefined]. *)
Definition length_or {A} (xs : option (list A)) (dflt : list A) : list A :=
  match xs with
  | Some l => if Nat.eqb (length l) 0 then dflt else l
  | None => dflt
  end.

(** Modelled from the spec: a sample of the extension table
    [filterFileExtensions] of [@utils/file] (outside the source files):
    ALL, and an absent filter, have no qualifier; every other filter has a
    fixed non-empty list of [ext:] tokens joined by spaces.  Used to run the
    handlers on concrete inputs. *)
Definition sampleExtensions (filterValue : option FileFilter) : string :=
  match filterValue with
  | None | Some ALL => ""
  | Some DOCUMENTS => "ext:pdf ext:doc"
  | Some SPREADSHEETS => "ext:xls ext:csv"
  | Some PRESENTATIONS => "ext:ppt ext:pptx"
  | Some CODE => "ext:js ext:ts"
  | Some IMAGES => "ext:png ext:jpg"
  | Some VIDEOS => "ext:mp4 ext:mov"
  | Some AUDIO => "ext:mp3 ext:wav"
  | Some OTHER => "ext:zip"
  end.

(** A sample of the hook [useImageAttachments] of [@hooks/files] (outside
    the source files), used to run the gallery on concrete inputs: the
    files with an image mime type, and the others. *)
Definition sampleImageAttachments (fileInfos : list FileInfo)
    (publicLinkEnabled : bool) : list FileInfo * list FileInfo :=
  List.partition (λ f, String.prefix "image/" (mime_type f)) fileInfos.

(** Sample inputs. *)
Definition sampleServerUrl : string := "https://chat.example.com".

Definition catPicture : FileInfo :=
  {| id := Some "file-cat"; create_at := Some 1700000003000%Z;
     channel_id := Some "channel-1"; user_id := Some "user-1";
     mime_type := "image/png" |}.

Definition dogReport : FileInfo :=
  {| id := Some "file-dog"; create_at := Some 1700000009000%Z;
     channel_id := Some "channel-2"; user_id := Some "user-2";
     mime_type := "application/pdf" |}.

Definition undatedNote : FileInfo :=
  {| id := Some "file-note"; create_at := None;
     channel_id := Some "channel-1"; user_id := Some "user-1";
     mime_type := "text/plain" |}.

Definition protoFile : FileInfo :=
  {| id := Some "__proto__"; create_at := Some 1650000000000%Z;
     channel_id := Some "channel-1"; user_id := Some "user-1";
     mime_type := "text/plain" |}.

Definition oldPhoto : FileInfo :=
  {| id := Some "file-old"; create_at := Some 1600000000000%Z;
     channel_id := Some "channel-2"; user_id := None;
     mime_type := "image/jpeg" |}.

Module SearchScreen.

(** The request sent to both search services. *)
Record SearchParams := mkSearchParams {
  terms : string;
  is_or_search : bool
}.

Section Normalization.

(** [filterFileExtensions] of [@utils/file]: the table is not part of the
    source files and is a parameter here.  Its argument is optional, as
    [getSearchParams] declares [filterValue?]. *)
Variable filterFileExtensions : option FileFilter → string.

Definition getSearchParams (terms : string) (filterValue : option FileFilter)
  : SearchParams :=
  let fileExtensions := filterFileExtensions filterValue in
  let extensionTerms :=
    if truthy fileExtensions then " " +:+ fileExtensions else "" in
  {| terms := terms +:+ extensionTerms; is_or_search := true |}.

End Normalization.

(** ** Screen state *)

(** The [useState] cells of [SearchScreen], each with its declared type
    ([searchValue] is a [useState<string>]). *)
Record Screen := mkScreen {
  cursorPosition : nat;
  searchValue : string;
  searchTeamId : string;
  selectedTab : TabType;
  filter : FileFilter;
  showResults : bool;
  loading : bool;
  resultsLoading : bool;
  lastSearchedValue : string;
  postIds : list string;
  fileInfos : list FileInfo;
  fileChannelIds : list string
}.

(** What a search service hands back.  [searchPosts] resolves to an object
    whose [order] may be missing, and the handler also guards the object
    itself ([postResults?.order?.length]); [searchFiles] resolves to an
    object that is destructured, each of [files] and [channels] possibly
    missing.  A search that reports its failure in the response, or that
    found nothing, is such a response with its data missing or empty; a
    promise that rejects delivers no response (see [searchRejected]). *)
Record PostSearchResult := mkPostSearchResult {
  order : option (list string)
}.

Record FileSearchResult := mkFileSearchResult {
  files : option (list FileInfo);
  channels : option (list string)
}.

(** Calls to collaborators, logged in the order they are made. *)
Inductive Call :=
| showAndUnlock
| hideAndLock
| addSearchToTeamSearchHistory (serverUrl teamId term : string)
| searchPosts (serverUrl teamId : string) (params : SearchParams)
| searchFiles (serverUrl teamId : string) (params : SearchParams).

(** The rest of an [async] handler, parked at its [await].  The part of
    [handleSearch] after [Promise.all] still holds the render it was
    created in ([cl]): its [handleLoading] reads that render's
    [showResults]. *)
Inductive Pending :=
| AwaitSearch (cl : Screen)
| AwaitFiles.

Record World := mkWorld {
  ui : Screen;
  calls : list Call;
  inflight : list Pending
}.

(** Handlers: computations over the world. *)
Definition Act (A : Type) : Type := World → A * World.

#[global] Instance Act_ret : MRet Act := λ A a w, (a, w).
#[global] Instance Act_bind : MBind Act :=
  λ A B f m w, let '(a, w') := m w in f a w'.

Definition exec {A} (m : Act A) (w : World) : World := (m w).2.

Definition update (f : Screen → Screen) : Act unit :=
  λ w, ((), {| ui := f (ui w); calls := calls w; inflight := inflight w |}).

Definition call (c : Call) : Act unit :=
  λ w, ((), {| ui := ui w; calls := calls w ++ [c]; inflight := inflight w |}).

Definition await (p : Pending) : Act unit :=
  λ w, ((), {| ui := ui w; calls := calls w; inflight := inflight w ++ [p] |}).

Definition setCursorPosition (v : nat) : Act unit :=
  update (λ s,
    {| cursorPosition := v;
       searchValue := searchValue s;
       searchTeamId := searchTeamId s;
       selectedTab := selectedTab s;
       filter := filter s;
       showResults := showResults s;
       loading := loading s;
       resultsLoading := resultsLoading s;
       lastSearchedValue := lastSearchedValue s;
       postIds := postIds s;
       fileInfos := fileInfos s;
       fileChannelIds := fileChannelIds s |}).

Definition setSearchValue (v : string) : Act unit :=
  update (λ s,
    {| cursorPosition := cursorPosition s;
       searchValue := v;
       searchTeamId := searchTeamId s;
       selectedTab := selectedTab s;
       filter := filter s;
       showResults := showResults s;
       loading := loading s;
       resultsLoading := resultsLoading s;
       lastSearchedValue := lastSearchedValue s;
       postIds := postIds s;
       fileInfos := fileInfos s;
       fileChannelIds := fileChannelIds s |}).

Definition setSearchTeamId (v : string) : Act unit :=
  update (λ s,
    {| cursorPosition := cursorPosition s;
       searchValue := searchValue s;
       searchTeamId := v;
       selectedTab := selectedTab s;
       filter := filter s;
       showResults := showResults s;
       loading := loading s;
       resultsLoading := resultsLoading s;
       lastSearchedValue := lastSearchedValue s;
       postIds := postIds s;
       fileInfos := fileInfos s;
       fileChannelIds := fileChannelIds s |}).

Definition setSelectedTab (v : TabType) : Act unit :=
  update (λ s,
    {| cursorPosition := cursorPosition s;
       searchValue := searchValue s;
       searchTeamId := searchTeamId s;
       selectedTab := v;
       filter := filter s;
       showResults := showResults s;
       loading := loading s;
       resultsLoading := resultsLoading s;
       lastSearchedValue := lastSearchedValue s;
       postIds := postIds s;
       fileInfos := fileInfos s;
       fileChannelIds := fileChannelIds s |}).

Definition setFilter (v : FileFilter) : Act unit :=
  update (λ s,
    {| cursorPosition := cursorPosition s;
       searchValue := searchValue s;
       searchTeamId := searchTeamId s;
       selectedTab := selectedTab s;
       filter := v;
       showResults := showResults s;
       loading := loading s;
       resultsLoading := resultsLoading s;
       lastSearchedValue := lastSearchedValue s;
       postIds := postIds s;
       fileInfos := fileInfos s;
       fileChannelIds := fileChannelIds s |}).

Definition setShowResults (v : bool) : Act unit :=
  update (λ s,
    {| cursorPosition := cursorPosition s;
       searchValue := searchValue s;
       searchTeamId := searchTeamId s;
       selectedTab := selectedTab s;
       filter := filter s;
       showResults := v;
       loading := loading s;
       resultsLoading := resultsLoading s;
       lastSearchedValue := lastSearchedValue s;
       postIds := postIds s;
       fileInfos := fileInfos s;
       fileChannelIds := fileChannelIds s |}).

Definition setLoading (v : bool) : Act unit :=
  update (λ s,
    {| cursorPosition := cursorPosition s;
       searchValue := searchValue s;
       searchTeamId := searchTeamId s;
       selectedTab := selectedTab s;
       filter := filter s;
       showResults := showResults s;
       loading := v;
       resultsLoading := resultsLoading s;
       lastSearchedValue := lastSearchedValue s;
       postIds := postIds s;
       fileInfos := fileInfos s;
       fileChannelIds := fileChannelIds s |}).

Definition setResultsLoading (v : bool) : Act unit :=
  update (λ s,
    {| cursorPosition := cursorPosition s;
       searchValue := searchValue s;
       searchTeamId := searchTeamId s;
       selectedTab := selectedTab s;
       filter := filter s;
       showResults := showResults s;
       loading := loading s;
       resultsLoading := v;
       lastSearchedValue := lastSearchedValue s;
       postIds := postIds s;
       fileInfos := fileInfos s;
       fileChannelIds := fileChannelIds s |}).

Definition setLastSearchedValue (v : string) : Act unit :=
  update (λ s,
    {| cursorPosition := cursorPosition s;
       searchValue := searchValue s;
       searchTeamId := searchTeamId s;
       selectedTab := selectedTab s;
       filter := filter s;
       showResults := showResults s;
       loading := loading s;
       resultsLoading := resultsLoading s;
       lastSearchedValue := v;
       postIds := postIds s;
       fileInfos := fileInfos s;
       fileChannelIds := fileChannelIds s |}).

Definition setPostIds (v : list string) : Act unit :=
  update (λ s,
    {| cursorPosition := cursorPosition s;
       searchValue := searchValue s;
       searchTeamId := searchTeamId s;
       selectedTab := selectedTab s;
       filter := filter s;
       showResults := showResults s;
       loading := loading s;
       resultsLoading := resultsLoading s;
       lastSearchedValue := lastSearchedValue s;
       postIds := v;
       fileInfos := fileInfos s;
       fileChannelIds := fileChannelIds s |}).

Definition setFileInfos (v : list FileInfo) : Act unit :=
  update (λ s,
    {| cursorPosition := cursorPosition s;
       searchValue := searchValue s;
       searchTeamId := searchTeamId s;
       selectedTab := selectedTab s;
       filter := filter s;
       showResults := showResults s;
       loading := loading s;
       resultsLoading := resultsLoading s;
       lastSearchedValue := lastSearchedValue s;
       postIds := postIds s;
       fileInfos := v;
       fileChannelIds := fileChannelIds s |}).

Definition setFileChannelIds (v : list string) : Act unit :=
  update (λ s,
    {| cursorPosition := cursorPosition s;
       searchValue := searchValue s;
       searchTeamId := searchTeamId s;
       selectedTab := selectedTab s;
       filter := filter s;
       showResults := showResults s;
       loading := loading s;
       resultsLoading := resultsLoading s;
       lastSearchedValue := lastSearchedValue s;
       postIds := postIds s;
       fileInfos := fileInfos s;
       fileChannelIds := v |}).

(** ** Handlers *)

Definition emptyFileResults : list FileInfo := [].
Definition emptyPostResults : list string := [].
Definition emptyChannelIds : list string := [].

Section Handlers.

(** [useServerUrl()] and the extension table of [@utils/file]. *)
Variable serverUrl : string.
Variable filterFileExtensions : option FileFilter → string.

Definition handleCancelAndClearSearch : Act unit :=
  call showAndUnlock ;;
  setSearchValue "" ;;
  setLastSearchedValue "" ;;
  setFilter ALL ;;
  setShowResults false.

Definition handleTextChange (newValue : string) : Act unit :=
  setSearchValue newValue ;;
  setCursorPosition (js_length newValue).

(** [handleLoading] closes over [showResults] of the render [cl] that
    created it. *)
Definition handleLoading (cl : Screen) (show : bool) : Act unit :=
  if showResults cl then setResultsLoading show else setLoading show.

(** [handleSearch] up to its [await Promise.all([...])]. *)
Definition handleSearch (cl : Screen) (newSearchTeamId term : string)
  : Act unit :=
  let searchParams := getSearchParams filterFileExtensions term None in
  if negb (truthy (terms searchParams)) then
    handleCancelAndClearSearch
  else
    handleLoading cl true ;;
    setFilter ALL ;;
    setLastSearchedValue term ;;
    call (addSearchToTeamSearchHistory serverUrl newSearchTeamId term) ;;
    call (searchPosts serverUrl newSearchTeamId searchParams) ;;
    call (searchFiles serverUrl newSearchTeamId searchParams) ;;
    await (AwaitSearch cl).

(** [handleSearch] from the point where both promises have settled with
    [postResults] and [{files, channels}]. *)
Definition handleSearch_settled (cl : Screen)
    (postResults : option PostSearchResult) (fileResults : FileSearchResult)
  : Act unit :=
  setFileInfos (length_or (files fileResults) emptyFileResults) ;;
  setPostIds (length_or (postResults ≫= order) emptyPostResults) ;;
  setFileChannelIds (length_or (channels fileResults) emptyChannelIds) ;;
  setShowResults true ;;
  call hideAndLock ;;
  handleLoading cl false.

Definition onSubmit (cl : Screen) : Act unit :=
  handleSearch cl (searchTeamId cl) (searchValue cl).

Definition handleRecentSearch (cl : Screen) (text : string) : Act unit :=
  handleTextChange text ;;
  handleSearch cl (searchTeamId cl) text.

(** [handleFilterChange] up to its [await searchFiles(...)]: it reads
    [lastSearchedValue] and [searchTeamId] of the render [cl]. *)
Definition handleFilterChange (cl : Screen) (filterValue : FileFilter)
  : Act unit :=
  setFilter filterValue ;;
  let searchParams :=
    getSearchParams filterFileExtensions (lastSearchedValue cl)
      (Some filterValue) in
  call (searchFiles serverUrl (searchTeamId cl) searchParams) ;;
  await AwaitFiles.

Definition handleFilterChange_settled (fileResults : FileSearchResult)
  : Act unit :=
  setFileInfos (length_or (files fileResults) emptyFileResults) ;;
  setFileChannelIds (length_or (channels fileResults) emptyChannelIds).

Definition handleResultsTeamChange (cl : Screen) (newTeamId : string)
  : Act unit :=
  setSearchTeamId newTeamId ;;
  handleSearch cl newTeamId (lastSearchedValue cl).

(** ** The screen as an event machine *)

(** What can happen to the screen: the callbacks the component passes to
    its children ([onClear] and [onCancel] of the navigation header are the
    same handler; [setTeamId] is the team picker of the results header,
    [initialSetTeamId] the one of the initial view), and the settling of a
    parked [await] (the [k]-th one in flight): it resolves with a response,
    or it throws ([searchRejected], [filesRejected]), because a promise
    rejected or because the value [searchFiles] resolved to cannot be
    destructured. *)
Inductive Event :=
| onChangeText (newValue : string)
| onSubmitEditing
| setRecentValue (text : string)
| onCancel
| onTabSelect (tab : TabType)
| onFilterChanged (filterValue : FileFilter)
| setTeamId (newTeamId : string)
| initialSetTeamId (teamId : string)
| searchSettled (k : nat) (postResults : option PostSearchResult)
    (fileResults : FileSearchResult)
| filesSettled (k : nat) (fileResults : FileSearchResult)
| searchRejected (k : nat)
| filesRejected (k : nat).

Definition resume (k : nat) : Act (option Pending) :=
  λ w, (inflight w !! k,
        {| ui := ui w; calls := calls w; inflight := delete k (inflight w) |}).

(** A callback runs in the closure of the current render; a settled
    promise runs the continuation parked for it, with the closure it was
    parked with.  Neither handler has a [try]/[catch]: when its [await]
    throws, the rest of the handler is skipped for good. *)
Definition step (e : Event) : Act unit :=
  λ w,
    let cl := ui w in
    match e with
    | onChangeText newValue => handleTextChange newValue w
    | onSubmitEditing => onSubmit cl w
    | setRecentValue text => handleRecentSearch cl text w
    | onCancel => handleCancelAndClearSearch w
    | onTabSelect tab => setSelectedTab tab w
    | onFilterChanged filterValue => handleFilterChange cl filterValue w
    | setTeamId newTeamId => handleResultsTeamChange cl newTeamId w
    | initialSetTeamId teamId => setSearchTeamId teamId w
    | searchSettled k postResults fileResults =>
        match inflight w !! k with
        | Some (AwaitSearch cl0) =>
            (resume k ;; handleSearch_settled cl0 postResults fileResults) w
        | _ => ((), w)
        end
    | filesSettled k fileResults =>
        match inflight w !! k with
        | Some AwaitFiles =>
            (resume k ;; handleFilterChange_settled fileResults) w
        | _ => ((), w)
        end
    | searchRejected k =>
        match inflight w !! k with
        | Some (AwaitSearch _) => (resume k ;; mret ()) w
        | _ => ((), w)
        end
    | filesRejected k =>
        match inflight w !! k with
        | Some AwaitFiles => (resume k ;; mret ()) w
        | _ => ((), w)
        end
    end.

Definition play (es : list Event) (w : World) : World :=
  foldl (λ w e, exec (step e) w) w es.

(** The screen as first rendered for [teamId], with the [searchTerm] of
    the navigation route. *)
Definition initialScreen (teamId searchTerm : string) : Screen :=
  {| cursorPosition := js_length searchTerm;
     searchValue := searchTerm;
     searchTeamId := teamId;
     selectedTab := MESSAGES;
     filter := ALL;
     showResults := false;
     loading := false;
     resultsLoading := false;
     lastSearchedValue := "";
     postIds := emptyPostResults;
     fileInfos := emptyFileResults;
     fileChannelIds := [] |}.

Definition initialWorld (teamId searchTerm : string) : World :=
  {| ui := initialScreen teamId searchTerm; calls := []; inflight := [] |}.

End Handlers.

(** How a promise ends. *)
Inductive Outcome (A : Type) :=
| Fulfilled (a : A)
| Rejected.
Arguments Fulfilled {A} a.
Arguments Rejected {A}.

(** [await Promise.all([searchPosts(...), searchFiles(...)])] of the [k]-th
    search in flight: it resolves to both responses when both promises are
    fulfilled, and rejects when one of them rejects, whatever the other
    delivers. *)
Definition promiseAll (k : nat) (posts : Outcome (option PostSearchResult))
    (files : Outcome FileSearchResult) : Event :=
  match posts, files with
  | Fulfilled postResults, Fulfilled fileResults =>
      searchSettled k postResults fileResults
  | _, _ => searchRejected k
  end.

(** The [await] of a search throws. *)
Definition search_rejected (e : Event) : bool :=
  match e with
  | searchRejected _ => true
  | _ => false
  end.

(** Sample responses of the two search services. *)
Definition catPosts : option PostSearchResult :=
  Some {| order := Some ["post-cat-1"; "post-cat-2"] |}.

Definition catFiles : FileSearchResult :=
  {| files := Some [catPicture]; channels := Some ["channel-1"] |}.

Definition dogPosts : option PostSearchResult :=
  Some {| order := Some ["post-dog-1"] |}.

Definition dogFiles : FileSearchResult :=
  {| files := Some [dogReport]; channels := Some ["channel-2"] |}.

(** The response of a search that failed: no data in it. *)
Definition failedFiles : FileSearchResult :=
  {| files := None; channels := None |}.

(** ** What the screen renders *)

(** The three components [renderItem] chooses from, with the props the
    component passes to each ([Results] gets [resultsLoading] as [loading]
    and [lastSearchedValue] as [searchValue]). *)
Inductive View :=
| loadingComponent
| initialComponent (searchValue teamId : string)
| resultsComponent (loading : bool) (selectedTab : TabType)
    (searchValue : string) (postIds : list string)
    (fileInfos : list FileInfo) (fileChannelIds : list string).

Definition renderItem (s : Screen) : View :=
  if loading s then loadingComponent
  else if negb (showResults s) then
    initialComponent (searchValue s) (searchTeamId s)
  else
    resultsComponent (resultsLoading s) (selectedTab s)
      (lastSearchedValue s) (postIds s) (fileInfos s) (fileChannelIds s).

(** The results header (team picker, tabs, file filter) with its props; it
    is rendered only [if (lastSearchedValue && !loading)]. *)
Inductive HeaderView :=
| Header (teamId : string) (numberMessages : nat) (selectedTab : TabType)
    (numberFiles : nat) (selectedFilter : FileFilter).

Definition header (s : Screen) : option HeaderView :=
  if truthy (lastSearchedValue s) && negb (loading s) then
    Some (Header (searchTeamId s) (length (postIds s)) (selectedTab s)
            (length (fileInfos s)) (filter s))
  else None.

(** Which callbacks the rendered screen offers: the navigation header,
    with the text box, is always there; [setRecentValue] and the team
    picker of the initial view belong to [initialComponent]; tab, filter
    and team changes belong to the results header; a promise settles
    whenever it does. *)
Definition offered (s : Screen) (e : Event) : bool :=
  match e with
  | onChangeText _ | onSubmitEditing | onCancel => true
  | setRecentValue _ | initialSetTeamId _ =>
      match renderItem s with
      | initialComponent _ _ => true
      | _ => false
      end
  | onTabSelect _ | onFilterChanged _ | setTeamId _ =>
      match header s with
      | Some _ => true
      | None => false
      end
  | searchSettled _ _ _ | filesSettled _ _ => true
  | searchRejected _ | filesRejected _ => true
  end.

Section Sessions.

Variable serverUrl : string.
Variable filterFileExtensions : option FileFilter → string.

(** A session: every event is one the screen offers when it happens. *)
Fixpoint session (es : list Event) (w : World) : bool :=
  match es with
  | [] => true
  | e :: es' =>
      offered (ui w) e
      && session es' (exec (step serverUrl filterFileExtensions e) w)
  end.

End Sessions.

(** A call to one of the two search services carries terms that are not
    empty; every other call passes. *)
Definition searches_something (c : Call) : bool :=
  match c with
  | searchPosts _ _ params | searchFiles _ _ params => truthy (terms params)
  | _ => true
  end.

(** A search parked by a render with the given [showResults] is in
    flight. *)
Definition search_in_flight (shown : bool) (w : World) : Prop :=
  ∃ cl, AwaitSearch cl ∈ inflight w ∧ showResults cl = shown.

End SearchScreen.

(** ** The file results pane *)

Module FileResults.

Definition galleryIdentifier : string := "search-files-location".

(** [n || 0] for a number that may be [undefined] (0 itself is falsy and is
    replaced by 0).  Timestamps are integral milliseconds. *)
Definition or_zero (n : option Z) : Z :=
  match n with
  | Some z => if (z =? 0)%Z then 0%Z else z
  | None => 0%Z
  end.

(** The comparator handed to [sort]. *)
Definition compareFn (a b : FileInfo) : Z :=
  (or_zero (create_at b) - or_zero (create_at a))%Z.

(** Ordered by creation time, newest first, a missing [create_at] counting
    as 0: every file is at least as recent as all files after it. *)
Definition newest_first (l : list FileInfo) : Prop :=
  StronglySorted
    (λ a b, (or_zero (create_at b) ≤ or_zero (create_at a))%Z) l.

(** [Array.prototype.sort(compareFn)]: the elements in the order of a
    consistent comparator, equal ones in their original order.  [a] stays
    before [b] unless [compareFn a b] is positive. *)
Fixpoint sort_insert {A} (compareFn : A → A → Z) (x : A) (l : list A)
  : list A :=
  match l with
  | [] => [x]
  | y :: l' =>
      if (compareFn x y <=? 0)%Z then x :: y :: l'
      else y :: sort_insert compareFn x l'
  end.

Definition sort {A} (compareFn : A → A → Z) (l : list A) : list A :=
  foldr (sort_insert compareFn) [] l.

(** [Array.prototype.reduce] with the index passed to the callback. *)
Fixpoint reduce_from {A B} (callback : B → A → nat → B) (l : list A)
    (idx : nat) (acc : B) : B :=
  match l with
  | [] => acc
  | v :: l' => reduce_from callback l' (S idx) (callback acc v idx)
  end.

Definition reduce {A B} (callback : B → A → nat → B) (l : list A)
    (initial : B) : B :=
  reduce_from callback l 0 initial.

(** The callback of the [reduce] that builds the index map:
    [if (v.id) acc[v.id] = idx; return acc]. *)
Definition indexById (acc : gmap string nat) (v : FileInfo) (idx : nat)
  : gmap string nat :=
  match id v with
  | Some i => if truthy i then object_set i idx acc else acc
  | None => acc
  end.

(** A channel record, as far as the pane reads it. *)
Module ChannelModel.
Record t := mk {
  id : string;
  displayName : string
}.
End ChannelModel.

(** [channelNames]: the display name of each channel under its id. *)
Definition channelNames (fileChannels : list ChannelModel.t)
  : gmap string string :=
  reduce
    (λ (acc : gmap string string) (v : ChannelModel.t) (_ : nat),
       object_set (ChannelModel.id v) (ChannelModel.displayName v) acc)
    fileChannels ∅.

(** The call the preview handler makes. *)
Inductive GalleryCall (GalleryItem : Type) :=
| openGalleryAtIndex (galleryIdentifier : string) (idx : nat)
    (items : list GalleryItem).
Arguments openGalleryAtIndex {GalleryItem} _ _ _.

Section Gallery.

(** The hook [useImageAttachments] of [@hooks/files] and the converter
    [fileToGalleryItem] of [@utils/gallery] are outside the source files. *)
Context {GalleryItem : Type}.
Variable useImageAttachments :
  list FileInfo → bool → list FileInfo * list FileInfo.
Variable fileToGalleryItem : FileInfo → option string → GalleryItem.

Variable fileInfos : list FileInfo.
Variable publicLinkEnabled : bool.

Definition imageAttachments : list FileInfo :=
  (useImageAttachments fileInfos publicLinkEnabled).1.

Definition nonImageAttachments : list FileInfo :=
  (useImageAttachments fileInfos publicLinkEnabled).2.

Definition filesForGallery : list FileInfo :=
  imageAttachments ++ nonImageAttachments.

Definition orderedFilesForGallery : list FileInfo :=
  sort compareFn filesForGallery.

Definition filesForGalleryIndexes : gmap string nat :=
  reduce indexById orderedFilesForGallery ∅.

(** The function wrapped by [preventDoubleTap]. *)
Definition handlePreviewPress (idx : nat) : GalleryCall GalleryItem :=
  let items :=
    (λ f, fileToGalleryItem f (user_id f)) <$> orderedFilesForGallery in
  openGalleryAtIndex galleryIdentifier idx items.

End Gallery.

End FileResults.

(** * Properties *)

(** ** Strings and defaults *)

Lemma truthy_true_iff s : truthy s = true ↔ s ≠ "".
Proof. destruct s; simpl; split; congruence. Qed.

Lemma truthy_false_iff s : truthy s = false ↔ s = "".
Proof. destruct s; simpl; split; congruence. Qed.

Example js_length_counts_utf16_units :
  js_length "cat" = 3 ∧ js_length "é" = 1 ∧ js_length "😀" = 2.
Proof. repeat split. Qed.

Lemma append_cons a s1 s2 : String a s1 +:+ s2 = String a (s1 +:+ s2).
Proof. reflexivity. Qed.

Lemma append_empty_r s : s +:+ "" = s.
Proof. induction s as [|a s IH]; [done | by rewrite append_cons, IH]. Qed.

Lemma append_assoc s1 s2 s3 : (s1 +:+ s2) +:+ s3 = s1 +:+ (s2 +:+ s3).
Proof.
  induction s1 as [|a s1 IH]; [done | by rewrite !append_cons, IH].
Qed.

Lemma truthy_append_l s1 s2 : truthy s1 = true → truthy (s1 +:+ s2) = true.
Proof. by destruct s1. Qed.

Lemma append_length s1 s2 :
  String.length (s1 +:+ s2) = String.length s1 + String.length s2.
Proof.
  induction s1 as [|a s1 IH]; [done | rewrite append_cons; simpl; lia].
Qed.

Lemma length_or_nil {A} (xs : option (list A)) :
  xs = None ∨ xs = Some [] → length_or xs [] = [].
Proof. by intros [-> | ->]. Qed.

Lemma length_or_cons {A} (l dflt : list A) :
  l ≠ [] → length_or (Some l) dflt = l.
Proof. by destruct l. Qed.

Lemma lookup_snoc_last {A} (l : list A) a : (l ++ [a]) !! length l = Some a.
Proof. induction l; simpl; auto. Qed.

Lemma delete_snoc_last {A} (l : list A) a : delete (length l) (l ++ [a]) = l.
Proof. induction l as [|x l IH]; simpl; [done | by f_equal]. Qed.

Lemma lookup_snoc2_last {A} (l : list A) a b :
  ((l ++ [a]) ++ [b]) !! S (length l) = Some b.
Proof. induction l; simpl; auto. Qed.

Lemma delete_snoc2_last {A} (l : list A) a b :
  delete (S (length l)) ((l ++ [a]) ++ [b]) = l ++ [a].
Proof. induction l as [|x l IH]; simpl; [done | by f_equal]. Qed.

(** ** Query normalization *)

Section NormalizationFacts.

Import SearchScreen.

Variable filterFileExtensions : option FileFilter → string.

Lemma getSearchParams_no_qualifier text fv :
  filterFileExtensions fv = "" →
  getSearchParams filterFileExtensions text fv = mkSearchParams text true.
Proof.
  intros Hext. unfold getSearchParams. rewrite Hext. simpl.
  by rewrite append_empty_r.
Qed.

Lemma getSearchParams_qualifier text fv :
  filterFileExtensions fv ≠ "" →
  terms (getSearchParams filterFileExtensions text fv)
  = text +:+ " " +:+ filterFileExtensions fv.
Proof.
  intros Hext. apply truthy_true_iff in Hext.
  unfold getSearchParams. simpl. by rewrite Hext.
Qed.

Lemma getSearchParams_truthy text fv :
  text ≠ "" →
  truthy (terms (getSearchParams filterFileExtensions text fv)) = true.
Proof.
  intros Ht. apply truthy_append_l. by apply truthy_true_iff.
Qed.

End NormalizationFacts.

Section NormalizationClaims.

Import SearchScreen.

Variable filterFileExtensions : option FileFilter → string.

(** C9: with ALL mapped to no qualifier by the extension table,
    [getSearchParams text ALL] returns the terms [text] unchanged, nothing
    appended, and [is_or_search] true; this holds for every text, the
    non-empty ones included. *)
Theorem getSearchParams_ALL (text : string) :
  filterFileExtensions (Some ALL) = "" →
  getSearchParams filterFileExtensions text (Some ALL)
  = {| terms := text; is_or_search := true |}.
Proof. apply getSearchParams_no_qualifier. Qed.

(** C7 (amended): for a filter other than ALL, whose qualifier is not
    empty, [getSearchParams text filter] returns [text], a space and the
    qualifier; normalizing these terms again with the same filter appends
    the qualifier once more, so the terms are not the same. *)
Theorem getSearchParams_filter_appends (text : string) (f : FileFilter) :
  (∀ g, g ≠ ALL → filterFileExtensions (Some g) ≠ "") →
  f ≠ ALL →
  terms (getSearchParams filterFileExtensions text (Some f))
  = text +:+ " " +:+ filterFileExtensions (Some f)
  ∧ terms (getSearchParams filterFileExtensions
             (terms (getSearchParams filterFileExtensions text (Some f)))
             (Some f))
    = text +:+ " " +:+ filterFileExtensions (Some f)
           +:+ " " +:+ filterFileExtensions (Some f)
  ∧ String.length
      (terms (getSearchParams filterFileExtensions
                (terms (getSearchParams filterFileExtensions text (Some f)))
                (Some f)))
    > String.length
        (terms (getSearchParams filterFileExtensions text (Some f))).
Proof.
  intros Htable Hf. specialize (Htable f Hf).
  rewrite !getSearchParams_qualifier by done.
  split; [done|]. split.
  - by rewrite !append_assoc.
  - rewrite !append_length. simpl. lia.
Qed.

End NormalizationClaims.

(** ** Handlers of the search screen *)

Ltac unfold_act :=
  unfold SearchScreen.exec, SearchScreen.handleResultsTeamChange,
    SearchScreen.handleRecentSearch, SearchScreen.onSubmit,
    SearchScreen.handleSearch, SearchScreen.handleSearch_settled,
    SearchScreen.handleFilterChange, SearchScreen.handleFilterChange_settled,
    SearchScreen.handleCancelAndClearSearch, SearchScreen.handleTextChange,
    SearchScreen.handleLoading, SearchScreen.resume,
    SearchScreen.setCursorPosition, SearchScreen.setSearchValue,
    SearchScreen.setSearchTeamId, SearchScreen.setSelectedTab,
    SearchScreen.setFilter, SearchScreen.setShowResults,
    SearchScreen.setLoading, SearchScreen.setResultsLoading,
    SearchScreen.setLastSearchedValue, SearchScreen.setPostIds,
    SearchScreen.setFileInfos, SearchScreen.setFileChannelIds,
    SearchScreen.update, SearchScreen.call, SearchScreen.await,
    mbind, SearchScreen.Act_bind, mret, SearchScreen.Act_ret.

Section HandlerFacts.

Import SearchScreen.

Variable serverUrl : string.
Variable filterFileExtensions : option FileFilter → string.

Abbreviation getSearchParams := (getSearchParams filterFileExtensions).
Abbreviation handleSearch := (handleSearch serverUrl filterFileExtensions).
Abbreviation handleFilterChange :=
  (handleFilterChange serverUrl filterFileExtensions).
Abbreviation handleResultsTeamChange :=
  (handleResultsTeamChange serverUrl filterFileExtensions).
Abbreviation step := (step serverUrl filterFileExtensions).
Abbreviation play := (play serverUrl filterFileExtensions).

Lemma exec_handleCancelAndClearSearch w :
  exec handleCancelAndClearSearch w
  = {| ui := {| cursorPosition := cursorPosition (ui w);
                searchValue := "";
                searchTeamId := searchTeamId (ui w);
                selectedTab := selectedTab (ui w);
                filter := ALL;
                showResults := false;
                loading := loading (ui w);
                resultsLoading := resultsLoading (ui w);
                lastSearchedValue := "";
                postIds := postIds (ui w);
                fileInfos := fileInfos (ui w);
                fileChannelIds := fileChannelIds (ui w) |};
       calls := calls w ++ [showAndUnlock];
       inflight := inflight w |}.
Proof. reflexivity. Qed.

Lemma handleSearch_falsy cl team term :
  truthy (terms (getSearchParams term None)) = false →
  handleSearch cl team term = handleCancelAndClearSearch.
Proof. intros Hf. unfold SearchScreen.handleSearch. by rewrite Hf. Qed.

Lemma exec_handleSearch_truthy cl team term w :
  truthy (terms (getSearchParams term None)) = true →
  exec (handleSearch cl team term) w
  = {| ui := {| cursorPosition := cursorPosition (ui w);
                searchValue := searchValue (ui w);
                searchTeamId := searchTeamId (ui w);
                selectedTab := selectedTab (ui w);
                filter := ALL;
                showResults := showResults (ui w);
                loading := if showResults cl then loading (ui w) else true;
                resultsLoading :=
                  if showResults cl then true else resultsLoading (ui w);
                lastSearchedValue := term;
                postIds := postIds (ui w);
                fileInfos := fileInfos (ui w);
                fileChannelIds := fileChannelIds (ui w) |};
       calls := calls w
                ++ [addSearchToTeamSearchHistory serverUrl team term;
                    searchPosts serverUrl team (getSearchParams term None);
                    searchFiles serverUrl team (getSearchParams term None)];
       inflight := inflight w ++ [AwaitSearch cl] |}.
Proof.
  intros Ht. unfold exec, SearchScreen.handleSearch. rewrite Ht. simpl.
  unfold_act.
  destruct (showResults cl); simpl; rewrite <- !app_assoc; reflexivity.
Qed.

Lemma exec_handleSearch_settled cl postResults fileResults w :
  exec (handleSearch_settled cl postResults fileResults) w
  = {| ui := {| cursorPosition := cursorPosition (ui w);
                searchValue := searchValue (ui w);
                searchTeamId := searchTeamId (ui w);
                selectedTab := selectedTab (ui w);
                filter := filter (ui w);
                showResults := true;
                loading := if showResults cl then loading (ui w) else false;
                resultsLoading :=
                  if showResults cl then false else resultsLoading (ui w);
                lastSearchedValue := lastSearchedValue (ui w);
                postIds := length_or (postResults ≫= order) [];
                fileInfos := length_or (files fileResults) [];
                fileChannelIds := length_or (channels fileResults) [] |};
       calls := calls w ++ [hideAndLock];
       inflight := inflight w |}.
Proof. unfold_act. by destruct (showResults cl). Qed.

Lemma exec_handleFilterChange cl filterValue w :
  exec (handleFilterChange cl filterValue) w
  = {| ui := {| cursorPosition := cursorPosition (ui w);
                searchValue := searchValue (ui w);
                searchTeamId := searchTeamId (ui w);
                selectedTab := selectedTab (ui w);
                filter := filterValue;
                showResults := showResults (ui w);
                loading := loading (ui w);
                resultsLoading := resultsLoading (ui w);
                lastSearchedValue := lastSearchedValue (ui w);
                postIds := postIds (ui w);
                fileInfos := fileInfos (ui w);
                fileChannelIds := fileChannelIds (ui w) |};
       calls := calls w
                ++ [searchFiles serverUrl (searchTeamId cl)
                      (getSearchParams (lastSearchedValue cl)
                         (Some filterValue))];
       inflight := inflight w ++ [AwaitFiles] |}.
Proof. reflexivity. Qed.

Lemma exec_handleFilterChange_settled fileResults w :
  exec (handleFilterChange_settled fileResults) w
  = {| ui := {| cursorPosition := cursorPosition (ui w);
                searchValue := searchValue (ui w);
                searchTeamId := searchTeamId (ui w);
                selectedTab := selectedTab (ui w);
                filter := filter (ui w);
                showResults := showResults (ui w);
                loading := loading (ui w);
                resultsLoading := resultsLoading (ui w);
                lastSearchedValue := lastSearchedValue (ui w);
                postIds := postIds (ui w);
                fileInfos := length_or (files fileResults) [];
                fileChannelIds := length_or (channels fileResults) [] |};
       calls := calls w;
       inflight := inflight w |}.
Proof. reflexivity. Qed.

Lemma exec_handleResultsTeamChange cl newTeamId w :
  exec (handleResultsTeamChange cl newTeamId) w
  = exec (handleSearch cl newTeamId (lastSearchedValue cl))
      (exec (setSearchTeamId newTeamId) w).
Proof.
  unfold exec, SearchScreen.handleResultsTeamChange, mbind, Act_bind.
  by destruct (setSearchTeamId newTeamId w).
Qed.

Lemma exec_handleRecentSearch cl text w :
  exec (handleRecentSearch serverUrl filterFileExtensions cl text) w
  = exec (handleSearch cl (searchTeamId cl) text)
      (exec (handleTextChange text) w).
Proof.
  unfold exec, SearchScreen.handleRecentSearch, mbind, Act_bind.
  by destruct (handleTextChange text w).
Qed.

Lemma exec_step_setRecentValue text w :
  truthy (terms (getSearchParams text None)) = true →
  exec (step (setRecentValue text)) w
  = {| ui := {| cursorPosition := js_length text;
                searchValue := text;
                searchTeamId := searchTeamId (ui w);
                selectedTab := selectedTab (ui w);
                filter := ALL;
                showResults := showResults (ui w);
                loading := if showResults (ui w) then loading (ui w) else true;
                resultsLoading :=
                  if showResults (ui w) then true else resultsLoading (ui w);
                lastSearchedValue := text;
                postIds := postIds (ui w);
                fileInfos := fileInfos (ui w);
                fileChannelIds := fileChannelIds (ui w) |};
       calls := calls w
                ++ [addSearchToTeamSearchHistory serverUrl
                      (searchTeamId (ui w)) text;
                    searchPosts serverUrl (searchTeamId (ui w))
                      (getSearchParams text None);
                    searchFiles serverUrl (searchTeamId (ui w))
                      (getSearchParams text None)];
       inflight := inflight w ++ [AwaitSearch (ui w)] |}.
Proof.
  intros Ht.
  change (exec (step (setRecentValue text)) w)
    with (exec (handleRecentSearch serverUrl filterFileExtensions
                  (ui w) text) w).
  by rewrite exec_handleRecentSearch, exec_handleSearch_truthy.
Qed.

Lemma exec_step_setTeamId newTeamId w :
  exec (step (setTeamId newTeamId)) w
  = exec (handleSearch (ui w) newTeamId (lastSearchedValue (ui w)))
      (exec (setSearchTeamId newTeamId) w).
Proof.
  change (exec (step (setTeamId newTeamId)) w)
    with (exec (handleResultsTeamChange (ui w) newTeamId) w).
  apply exec_handleResultsTeamChange.
Qed.

Lemma exec_step_onFilterChanged filterValue w :
  exec (step (onFilterChanged filterValue)) w
  = exec (handleFilterChange (ui w) filterValue) w.
Proof. reflexivity. Qed.

Lemma exec_step_onCancel w :
  exec (step onCancel) w = exec handleCancelAndClearSearch w.
Proof. reflexivity. Qed.

Lemma exec_step_searchSettled k cl postResults fileResults w :
  inflight w !! k = Some (AwaitSearch cl) →
  exec (step (searchSettled k postResults fileResults)) w
  = exec (handleSearch_settled cl postResults fileResults)
      {| ui := ui w; calls := calls w; inflight := delete k (inflight w) |}.
Proof. intros Hk. unfold exec, SearchScreen.step. by rewrite Hk. Qed.

End HandlerFacts.

(** ** Claims about the search screen *)

Section SearchClaims.

Import SearchScreen.

Variable serverUrl : string.
Variable filterFileExtensions : option FileFilter → string.

Abbreviation getSearchParams := (getSearchParams filterFileExtensions).
Abbreviation handleSearch := (handleSearch serverUrl filterFileExtensions).
Abbreviation step := (step serverUrl filterFileExtensions).
Abbreviation play := (play serverUrl filterFileExtensions).

(** C1 (amended): two submits overlap and the second one's fetches settle
    before the first one's.  The screen then
    shows the responses of the first call, the one that settled last: its
    late response overwrites what the second call committed, while
    [lastSearchedValue] stays at the second call's text. *)
Theorem overlapping_submits_last_settled_wins
    (w0 : World) (t1 t2 : string)
    (postResults1 postResults2 : option PostSearchResult)
    (fileResults1 fileResults2 : FileSearchResult) :
  t1 ≠ "" → t2 ≠ "" →
  let n := length (inflight w0) in
  let w := play [setRecentValue t1; setRecentValue t2;
                 searchSettled (S n) postResults2 fileResults2;
                 searchSettled n postResults1 fileResults1] w0 in
  postIds (ui w) = length_or (postResults1 ≫= order) []
  ∧ fileInfos (ui w) = length_or (files fileResults1) []
  ∧ fileChannelIds (ui w) = length_or (channels fileResults1) []
  ∧ lastSearchedValue (ui w) = t2
  ∧ inflight w = inflight w0.
Proof.
  intros Ht1 Ht2 n. subst n. unfold SearchScreen.play. cbn [foldl].
  pose proof (getSearchParams_truthy filterFileExtensions t1 None Ht1) as H1.
  pose proof (getSearchParams_truthy filterFileExtensions t2 None Ht2) as H2.
  rewrite (exec_step_setRecentValue _ _ t1) by done.
  rewrite (exec_step_setRecentValue _ _ t2) by done.
  cbn [ui calls inflight].
  erewrite (exec_step_searchSettled _ _ (S (length (inflight w0))))
    by (cbn [inflight]; apply lookup_snoc2_last).
  rewrite exec_handleSearch_settled. cbn [ui calls inflight].
  rewrite delete_snoc2_last.
  erewrite (exec_step_searchSettled _ _ (length (inflight w0)))
    by (cbn [inflight]; apply lookup_snoc_last).
  rewrite exec_handleSearch_settled. cbn [ui calls inflight].
  by rewrite delete_snoc_last.
Qed.

(** C3 (amended): a team change with a committed (non-empty)
    [lastSearchedValue] records the team, and issues the history entry, the
    post search and the file search for [lastSearchedValue] under the new
    team id, with the request [handleSearch] builds without a filter; the
    filter is ALL afterwards, whatever it was before, and still is when the
    searches settle. *)
Theorem handleResultsTeamChange_searches_and_resets_filter
    (w : World) (newTeamId : string)
    (postResults : option PostSearchResult) (fileResults : FileSearchResult) :
  lastSearchedValue (ui w) ≠ "" →
  let w' := exec (step (setTeamId newTeamId)) w in
  calls w'
  = calls w
    ++ [addSearchToTeamSearchHistory serverUrl newTeamId
          (lastSearchedValue (ui w));
        searchPosts serverUrl newTeamId
          (getSearchParams (lastSearchedValue (ui w)) None);
        searchFiles serverUrl newTeamId
          (getSearchParams (lastSearchedValue (ui w)) None)]
  ∧ searchTeamId (ui w') = newTeamId
  ∧ lastSearchedValue (ui w') = lastSearchedValue (ui w)
  ∧ filter (ui w') = ALL
  ∧ filter (ui (exec (handleSearch_settled (ui w) postResults fileResults)
                  w')) = ALL.
Proof.
  intros Hl w'. subst w'.
  rewrite exec_handleSearch_settled, exec_step_setTeamId.
  rewrite exec_handleSearch_truthy by (by apply getSearchParams_truthy).
  done.
Qed.


(** C5 (amended): cancel clears the query text and [lastSearchedValue],
    resets the filter to ALL, hides the results ([showResults] false) and
    unlocks the header; [postIds], [fileInfos] and [fileChannelIds] keep
    their contents. *)
Theorem handleCancelAndClearSearch_hides_results (w : World) :
  searchValue (ui (exec (step onCancel) w)) = ""
  ∧ lastSearchedValue (ui (exec (step onCancel) w)) = ""
  ∧ filter (ui (exec (step onCancel) w)) = ALL
  ∧ showResults (ui (exec (step onCancel) w)) = false
  ∧ postIds (ui (exec (step onCancel) w)) = postIds (ui w)
  ∧ fileInfos (ui (exec (step onCancel) w)) = fileInfos (ui w)
  ∧ fileChannelIds (ui (exec (step onCancel) w)) = fileChannelIds (ui w)
  ∧ calls (exec (step onCancel) w) = calls w ++ [showAndUnlock].
Proof.
  rewrite exec_step_onCancel, exec_handleCancelAndClearSearch.
  cbn [ui calls]. repeat split.
Qed.

(** C6 (amended): with no qualifier for an absent filter, a submit of the
    empty text does what cancel does (query text and [lastSearchedValue]
    empty, filter ALL, results hidden) and calls neither search service
    nor the history store, only the header's unlock; any other text, a
    blank one included, is recorded and searched. *)
Theorem handleSearch_empty_cancels
    (cl : Screen) (w : World) (team term : string) :
  filterFileExtensions None = "" →
  exec (handleSearch cl team "") w = exec handleCancelAndClearSearch w
  ∧ searchValue (ui (exec (handleSearch cl team "") w)) = ""
  ∧ lastSearchedValue (ui (exec (handleSearch cl team "") w)) = ""
  ∧ filter (ui (exec (handleSearch cl team "") w)) = ALL
  ∧ showResults (ui (exec (handleSearch cl team "") w)) = false
  ∧ calls (exec (handleSearch cl team "") w) = calls w ++ [showAndUnlock]
  ∧ inflight (exec (handleSearch cl team "") w) = inflight w
  ∧ (term ≠ "" →
     calls (exec (handleSearch cl team term) w)
     = calls w
       ++ [addSearchToTeamSearchHistory serverUrl team term;
           searchPosts serverUrl team {| terms := term; is_or_search := true |};
           searchFiles serverUrl team
             {| terms := term; is_or_search := true |}]).
Proof.
  intros Hnone.
  assert (He : handleSearch cl team "" = handleCancelAndClearSearch).
  { apply handleSearch_falsy.
    by rewrite (getSearchParams_no_qualifier _ _ _ Hnone). }
  rewrite He. repeat split.
  intros Ht.
  rewrite exec_handleSearch_truthy by (by apply getSearchParams_truthy).
  simpl. by rewrite (getSearchParams_no_qualifier _ _ _ Hnone).
Qed.

(** C8 (amended): [handleSearch] sets [lastSearchedValue] to the submitted
    text at once, before the fetches are issued, and leaves the three
    result arrays as they were; when the fetches have settled the arrays
    are replaced and [lastSearchedValue] is left as it is.  In between,
    the arrays still hold the results of the search before. *)
Theorem handleSearch_sets_lastSearchedValue_first
    (cl : Screen) (w w1 : World) (team term : string)
    (postResults : option PostSearchResult) (fileResults : FileSearchResult) :
  term ≠ "" →
  lastSearchedValue (ui (exec (handleSearch cl team term) w)) = term
  ∧ postIds (ui (exec (handleSearch cl team term) w)) = postIds (ui w)
  ∧ fileInfos (ui (exec (handleSearch cl team term) w)) = fileInfos (ui w)
  ∧ fileChannelIds (ui (exec (handleSearch cl team term) w))
    = fileChannelIds (ui w)
  ∧ inflight (exec (handleSearch cl team term) w)
    = inflight w ++ [AwaitSearch cl]
  ∧ lastSearchedValue
      (ui (exec (handleSearch_settled cl postResults fileResults) w1))
    = lastSearchedValue (ui w1)
  ∧ postIds (ui (exec (handleSearch_settled cl postResults fileResults) w1))
    = length_or (postResults ≫= order) []
  ∧ fileInfos (ui (exec (handleSearch_settled cl postResults fileResults) w1))
    = length_or (files fileResults) []
  ∧ fileChannelIds
      (ui (exec (handleSearch_settled cl postResults fileResults) w1))
    = length_or (channels fileResults) [].
Proof.
  intros Ht.
  rewrite exec_handleSearch_truthy by (by apply getSearchParams_truthy).
  rewrite exec_handleSearch_settled. repeat split.
Qed.

End SearchClaims.

(** ** Gallery order of the file results *)

Section SortFacts.

Import FileResults.

Context {A : Type}.
Variable compareFn : A → A → Z.

Lemma sort_insert_Permutation x l : sort_insert compareFn x l ≡ₚ x :: l.
Proof.
  induction l as [|y l IH]; simpl; [done|].
  destruct (compareFn x y <=? 0)%Z; [done|].
  rewrite IH. apply Permutation_swap.
Qed.

Lemma sort_Permutation l : sort compareFn l ≡ₚ l.
Proof.
  induction l as [|x l IH]; simpl; [done|].
  fold (sort compareFn l). by rewrite sort_insert_Permutation, IH.
Qed.

(** A comparator that orders by a key, as [compareFn] does by creation
    time. *)
Variable R : relation A.
Hypothesis R_trans : Transitive R.
Hypothesis compare_le : ∀ x y, (compareFn x y ≤ 0)%Z → R x y.
Hypothesis compare_gt : ∀ x y, (0 < compareFn x y)%Z → R y x.

Lemma sort_insert_StronglySorted x l :
  StronglySorted R l → StronglySorted R (sort_insert compareFn x l).
Proof.
  induction 1 as [|y l Hsorted IH Hy]; simpl.
  { repeat constructor. }
  destruct (Z.leb_spec (compareFn x y) 0) as [Hle | Hgt].
  - apply compare_le in Hle. constructor; [by constructor|].
    constructor; [done|].
    eapply Forall_impl; [exact Hy|]. intros z Hz. by trans y.
  - constructor; [done|].
    rewrite sort_insert_Permutation. constructor; [|done].
    by apply compare_gt.
Qed.

Lemma sort_StronglySorted l : StronglySorted R (sort compareFn l).
Proof.
  induction l as [|x l IH]; simpl; [constructor|].
  by apply sort_insert_StronglySorted.
Qed.

End SortFacts.

Section IndexFacts.

Import FileResults.

Lemma object_set_lookup {V} key (value : V) acc k :
  object_set key value acc !! k
  = if decide (key = k ∧ k ≠ "__proto__") then Some value else acc !! k.
Proof.
  unfold object_set. destruct (decide (key = "__proto__")) as [-> | Hkey].
  - case_decide as Hd; [by destruct Hd as [<- Hk] | done].
  - destruct (decide (key = k)) as [<- | Hne].
    + rewrite lookup_insert_eq. by rewrite decide_True.
    + rewrite lookup_insert_ne by done. rewrite decide_False; [done|].
      by intros [? _].
Qed.

Lemma indexById_lookup acc v idx k :
  indexById acc v idx !! k
  = if decide (id v = Some k ∧ k ≠ "" ∧ k ≠ "__proto__")
    then Some idx else acc !! k.
Proof.
  unfold indexById.
  destruct (decide (id v = Some k ∧ k ≠ "" ∧ k ≠ "__proto__"))
    as [(Hid & Hk & Hp) | Hd].
  - rewrite Hid. apply truthy_true_iff in Hk. rewrite Hk.
    rewrite object_set_lookup. by rewrite decide_True.
  - destruct (id v) as [i|]; [|done].
    destruct (truthy i) eqn:Hi; [|done].
    apply truthy_true_iff in Hi. rewrite object_set_lookup.
    rewrite decide_False; [done|]. intros [-> Hp]. by apply Hd.
Qed.

Lemma reduce_from_lookup_sound l idx acc k j :
  reduce_from indexById l idx acc !! k = Some j →
  acc !! k = Some j
  ∨ (idx ≤ j ∧ ∃ v, l !! (j - idx) = Some v ∧ id v = Some k).
Proof.
  revert idx acc. induction l as [|v l IH]; intros idx acc; simpl; [by left|].
  intros [Hacc | (Hle & v' & Hv' & Hid)]%IH.
  - rewrite indexById_lookup in Hacc. case_decide as Hd; [|by left].
    destruct Hd as [Hid _]. simplify_eq. right. split; [done|].
    exists v. by rewrite Nat.sub_diag.
  - right. split; [lia|]. exists v'. split; [|done].
    replace (j - idx) with (S (j - S idx)) by lia. done.
Qed.

Lemma reduce_from_lookup_mono l idx acc k j0 :
  acc !! k = Some j0 →
  ∃ j, reduce_from indexById l idx acc !! k = Some j ∧ (j = j0 ∨ idx ≤ j).
Proof.
  revert idx acc j0. induction l as [|v l IH]; intros idx acc j0 Hacc; simpl.
  { exists j0. by split; [|left]. }
  destruct (decide (id v = Some k ∧ k ≠ "" ∧ k ≠ "__proto__")) as [Hd | Hd].
  - destruct (IH (S idx) (indexById acc v idx) idx) as (j & Hj & Hor).
    { rewrite indexById_lookup. by rewrite decide_True. }
    exists j. split; [done|]. right. lia.
  - destruct (IH (S idx) (indexById acc v idx) j0) as (j & Hj & Hor).
    { rewrite indexById_lookup. by rewrite decide_False. }
    exists j. split; [done|]. destruct Hor; [by left | right; lia].
Qed.

Lemma reduce_from_lookup_complete l idx acc k i v :
  l !! i = Some v → id v = Some k → k ≠ "" → k ≠ "__proto__" →
  ∃ j, reduce_from indexById l idx acc !! k = Some j ∧ idx + i ≤ j.
Proof.
  revert idx acc i. induction l as [|v' l IH]; intros idx acc i Hi Hid Hk Hp.
  { done. }
  destruct i as [|i]; simpl in *.
  - simplify_eq.
    destruct (reduce_from_lookup_mono l (S idx) (indexById acc v idx) k idx)
      as (j & Hj & Hor).
    { rewrite indexById_lookup. by rewrite decide_True. }
    exists j. split; [done | lia].
  - destruct (IH (S idx) (indexById acc v' idx) i Hi Hid Hk Hp)
      as (j & Hj & ?).
    exists j. split; [done | lia].
Qed.

Lemma reduce_from_lookup_unset l idx acc k :
  k = "" ∨ k = "__proto__" →
  reduce_from indexById l idx acc !! k = acc !! k.
Proof.
  intros Hk. revert idx acc.
  induction l as [|v l IH]; intros idx acc; [done|].
  cbn [reduce_from]. rewrite IH, indexById_lookup.
  rewrite decide_False; [done|]. intros (_ & ? & ?). by destruct Hk.
Qed.

End IndexFacts.

Section GalleryClaims.

Import FileResults.

Context {GalleryItem : Type}.
Variable useImageAttachments :
  list FileInfo → bool → list FileInfo * list FileInfo.
Variable fileToGalleryItem : FileInfo → option string → GalleryItem.

Abbreviation filesForGallery := (filesForGallery useImageAttachments).
Abbreviation orderedFilesForGallery :=
  (orderedFilesForGallery useImageAttachments).
Abbreviation filesForGalleryIndexes :=
  (filesForGalleryIndexes useImageAttachments).
Abbreviation handlePreviewPress :=
  (handlePreviewPress useImageAttachments fileToGalleryItem).

#[local] Instance newest_first_trans :
  Transitive (λ a b : FileInfo,
                (or_zero (create_at b) ≤ or_zero (create_at a))%Z).
Proof. intros a b c ??. lia. Qed.

(** C10 (amended): for every list of file records, the gallery sequence
    holds the image and non-image attachments ordered by creation time,
    newest first, a missing [create_at] counting as 0; the preview handler
    passes the gallery items of exactly this sequence, in this order; and
    the index map sends a file id to a position of the sequence that holds
    a file with this id, for every file whose id is neither empty nor
    ["__proto__"]: the last such position, which is the file's own
    position when no other file shares its id.  No index is stored under
    ["__proto__"]. *)
Theorem gallery_newest_first_and_indexed
    (fileInfos : list FileInfo) (publicLinkEnabled : bool) :
  newest_first (orderedFilesForGallery fileInfos publicLinkEnabled)
  ∧ StronglySorted
      (λ a b, (default 0 (create_at b) ≤ default 0 (create_at a))%Z)
      (orderedFilesForGallery fileInfos publicLinkEnabled)
  ∧ orderedFilesForGallery fileInfos publicLinkEnabled
    ≡ₚ filesForGallery fileInfos publicLinkEnabled
  ∧ orderedFilesForGallery fileInfos publicLinkEnabled
    ≡ₚ (useImageAttachments fileInfos publicLinkEnabled).1
       ++ (useImageAttachments fileInfos publicLinkEnabled).2
  ∧ (∀ idx,
       handlePreviewPress fileInfos publicLinkEnabled idx
       = openGalleryAtIndex galleryIdentifier idx
           ((λ f, fileToGalleryItem f (user_id f))
              <$> orderedFilesForGallery fileInfos publicLinkEnabled))
  ∧ (∀ k j,
       filesForGalleryIndexes fileInfos publicLinkEnabled !! k = Some j →
       ∃ v, orderedFilesForGallery fileInfos publicLinkEnabled !! j = Some v
            ∧ id v = Some k)
  ∧ (∀ i v k,
       orderedFilesForGallery fileInfos publicLinkEnabled !! i = Some v →
       id v = Some k → k ≠ "" → k ≠ "__proto__" →
       ∃ j, filesForGalleryIndexes fileInfos publicLinkEnabled !! k = Some j
            ∧ i ≤ j
            ∧ ((∀ i' v',
                  orderedFilesForGallery fileInfos publicLinkEnabled !! i'
                  = Some v' →
                  id v' = Some k → i' = i) →
               j = i))
  ∧ filesForGalleryIndexes fileInfos publicLinkEnabled !! "__proto__" = None.
Proof.
  assert (Hsound : ∀ k j,
    filesForGalleryIndexes fileInfos publicLinkEnabled !! k = Some j →
    ∃ v, orderedFilesForGallery fileInfos publicLinkEnabled !! j = Some v
         ∧ id v = Some k).
  { intros k j Hj. apply reduce_from_lookup_sound in Hj.
    destruct Hj as [Hempty | (_ & v & Hv & Hid)]; [done|].
    exists v. by rewrite Nat.sub_0_r in Hv. }
  assert (Hkey : ∀ n, or_zero n = default 0%Z n).
  { intros [z|]; [|done]. simpl. by destruct (Z.eqb_spec z 0). }
  assert (Hsorted :
    newest_first (orderedFilesForGallery fileInfos publicLinkEnabled)).
  { unfold newest_first, FileResults.orderedFilesForGallery.
    apply sort_StronglySorted; [apply _ | |]; unfold compareFn; intros; lia. }
  split; [exact Hsorted|]. split.
  { unfold FileResults.orderedFilesForGallery.
    apply sort_StronglySorted; [intros a b c ??; lia | |];
      unfold compareFn; intros x y; rewrite !Hkey; lia. }
  split; [apply sort_Permutation|]. split; [apply sort_Permutation|].
  split; [done|]. split; [exact Hsound|]. split.
  - intros i v k Hi Hid Hk Hp.
    destruct (reduce_from_lookup_complete
                (orderedFilesForGallery fileInfos publicLinkEnabled)
                0 ∅ k i v Hi Hid Hk Hp) as (j & Hj & Hle).
    exists j. split; [exact Hj|]. split; [lia|].
    intros Huniq. destruct (Hsound k j Hj) as (v' & Hv' & Hid').
    by apply (Huniq j v').
  - unfold FileResults.filesForGalleryIndexes, reduce.
    rewrite reduce_from_lookup_unset by (by right). done.
Qed.

End GalleryClaims.

(** ** The claims on concrete inputs *)

Section Runs.

Import SearchScreen.

Abbreviation play := (play sampleServerUrl sampleExtensions).
Abbreviation step := (step sampleServerUrl sampleExtensions).
Abbreviation handleSearch := (handleSearch sampleServerUrl sampleExtensions).
Abbreviation start := (initialWorld "team-1" "").

Lemma sampleExtensions_nonempty (g : FileFilter) :
  g ≠ ALL → sampleExtensions (Some g) ≠ "".
Proof. by destruct g. Qed.

(** C1, the claim as stated fails: "cat" is submitted, then "dog"; when
    the dog search settles its posts are on screen, and when the cat
    search settles after it, the screen shows the posts and files of
    "cat", the earlier call, under the last searched value "dog". *)
Lemma overlapping_submits_stale_overwrite :
  postIds (ui (play [onChangeText "cat"; onSubmitEditing;
                     onChangeText "dog"; onSubmitEditing;
                     searchSettled 1 dogPosts dogFiles] start))
  = ["post-dog-1"]
  ∧ postIds (ui (play [onChangeText "cat"; onSubmitEditing;
                       onChangeText "dog"; onSubmitEditing;
                       searchSettled 1 dogPosts dogFiles;
                       searchSettled 0 catPosts catFiles] start))
    = ["post-cat-1"; "post-cat-2"]
  ∧ fileInfos (ui (play [onChangeText "cat"; onSubmitEditing;
                         onChangeText "dog"; onSubmitEditing;
                         searchSettled 1 dogPosts dogFiles;
                         searchSettled 0 catPosts catFiles] start))
    = [catPicture]
  ∧ lastSearchedValue
      (ui (play [onChangeText "cat"; onSubmitEditing;
                 onChangeText "dog"; onSubmitEditing;
                 searchSettled 1 dogPosts dogFiles;
                 searchSettled 0 catPosts catFiles] start))
    = "dog".
Proof. repeat split. Qed.

Lemma overlapping_submits_last_settled_wins_witness :
  let w := play [setRecentValue "cat"; setRecentValue "dog";
                 searchSettled 1 dogPosts dogFiles;
                 searchSettled 0 catPosts catFiles] start in
  postIds (ui w) = ["post-cat-1"; "post-cat-2"]
  ∧ fileInfos (ui w) = [catPicture]
  ∧ fileChannelIds (ui w) = ["channel-1"]
  ∧ lastSearchedValue (ui w) = "dog"
  ∧ inflight w = [].
Proof.
  apply (overlapping_submits_last_settled_wins sampleServerUrl
           sampleExtensions start "cat" "dog" catPosts dogPosts
           catFiles dogFiles); done.
Defined.

(** C3, the claim as stated fails: after a search for "cat" and a change
    of the filter to IMAGES, a team change leaves the filter at ALL. *)
Lemma team_change_resets_filter :
  filter (ui (play [onChangeText "cat"; onSubmitEditing;
                    searchSettled 0 catPosts catFiles;
                    onFilterChanged IMAGES;
                    filesSettled 0 catFiles] start))
  = IMAGES
  ∧ filter (ui (play [onChangeText "cat"; onSubmitEditing;
                      searchSettled 0 catPosts catFiles;
                      onFilterChanged IMAGES;
                      filesSettled 0 catFiles;
                      setTeamId "team-2"] start))
    = ALL
  ∧ filter (ui (play [onChangeText "cat"; onSubmitEditing;
                      searchSettled 0 catPosts catFiles;
                      onFilterChanged IMAGES;
                      filesSettled 0 catFiles;
                      setTeamId "team-2";
                      searchSettled 0 catPosts catFiles] start))
    = ALL.
Proof. repeat split. Qed.

Lemma handleResultsTeamChange_witness :
  let w := play [onChangeText "cat"; onSubmitEditing;
                 searchSettled 0 catPosts catFiles;
                 onFilterChanged IMAGES; filesSettled 0 catFiles] start in
  let w' := exec (step (setTeamId "team-2")) w in
  calls w'
  = calls w
    ++ [addSearchToTeamSearchHistory sampleServerUrl "team-2" "cat";
        searchPosts sampleServerUrl "team-2"
          {| terms := "cat"; is_or_search := true |};
        searchFiles sampleServerUrl "team-2"
          {| terms := "cat"; is_or_search := true |}]
  ∧ searchTeamId (ui w') = "team-2"
  ∧ lastSearchedValue (ui w') = "cat"
  ∧ filter (ui w') = ALL
  ∧ filter (ui (exec (handleSearch_settled (ui w) dogPosts dogFiles) w'))
    = ALL.
Proof.
  apply (handleResultsTeamChange_searches_and_resets_filter sampleServerUrl
           sampleExtensions
           (play [onChangeText "cat"; onSubmitEditing;
                  searchSettled 0 catPosts catFiles;
                  onFilterChanged IMAGES; filesSettled 0 catFiles] start)
           "team-2" dogPosts dogFiles).
  done.
Defined.

(** C4 on a run: after a search for "cat" the text box is edited to
    "kitten" and the filter set to IMAGES; the one call made is the file
    search for "cat" with the image extensions. *)
Example filter_change_uses_last_searched_value :
  calls (exec (step (onFilterChanged IMAGES))
           (play [onChangeText "cat"; onSubmitEditing;
                  searchSettled 0 catPosts catFiles;
                  onChangeText "kitten"] start))
  = [addSearchToTeamSearchHistory sampleServerUrl "team-1" "cat";
     searchPosts sampleServerUrl "team-1"
       {| terms := "cat"; is_or_search := true |};
     searchFiles sampleServerUrl "team-1"
       {| terms := "cat"; is_or_search := true |};
     hideAndLock;
     searchFiles sampleServerUrl "team-1"
       {| terms := "cat ext:png ext:jpg"; is_or_search := true |}].
Proof. reflexivity. Qed.

(** C5, the claim as stated fails: cancel after a search for "cat" leaves
    the three result arrays filled. *)
Lemma cancel_keeps_result_arrays :
  postIds (ui (play [onChangeText "cat"; onSubmitEditing;
                     searchSettled 0 catPosts catFiles; onCancel] start))
  = ["post-cat-1"; "post-cat-2"]
  ∧ fileInfos (ui (play [onChangeText "cat"; onSubmitEditing;
                         searchSettled 0 catPosts catFiles; onCancel] start))
    = [catPicture]
  ∧ fileChannelIds
      (ui (play [onChangeText "cat"; onSubmitEditing;
                 searchSettled 0 catPosts catFiles; onCancel] start))
    = ["channel-1"].
Proof. repeat split. Qed.

(** C6, the claim as stated fails: a submit of a blank text records it in
    the history and calls both search services. *)
Lemma blank_query_is_searched :
  calls (play [onChangeText "  "; onSubmitEditing] start)
  = [addSearchToTeamSearchHistory sampleServerUrl "team-1" "  ";
     searchPosts sampleServerUrl "team-1"
       {| terms := "  "; is_or_search := true |};
     searchFiles sampleServerUrl "team-1"
       {| terms := "  "; is_or_search := true |}]
  ∧ lastSearchedValue (ui (play [onChangeText "  "; onSubmitEditing] start))
    = "  "
  ∧ loading (ui (play [onChangeText "  "; onSubmitEditing] start)) = true.
Proof. repeat split. Qed.

Lemma handleSearch_empty_cancels_witness :
  exec (handleSearch (ui start) "team-1" "") start
  = exec handleCancelAndClearSearch start
  ∧ searchValue (ui (exec (handleSearch (ui start) "team-1" "") start)) = ""
  ∧ lastSearchedValue (ui (exec (handleSearch (ui start) "team-1" "") start))
    = ""
  ∧ filter (ui (exec (handleSearch (ui start) "team-1" "") start)) = ALL
  ∧ showResults (ui (exec (handleSearch (ui start) "team-1" "") start))
    = false
  ∧ calls (exec (handleSearch (ui start) "team-1" "") start)
    = [showAndUnlock]
  ∧ inflight (exec (handleSearch (ui start) "team-1" "") start) = []
  ∧ ("cat" ≠ "" →
     calls (exec (handleSearch (ui start) "team-1" "cat") start)
     = [addSearchToTeamSearchHistory sampleServerUrl "team-1" "cat";
        searchPosts sampleServerUrl "team-1"
          {| terms := "cat"; is_or_search := true |};
        searchFiles sampleServerUrl "team-1"
          {| terms := "cat"; is_or_search := true |}]).
Proof.
  apply (handleSearch_empty_cancels sampleServerUrl sampleExtensions
           (ui start) start "team-1" "cat").
  reflexivity.
Defined.

(** C7, the claim as stated fails: normalizing the terms for "cat" and
    IMAGES again with IMAGES appends the extensions a second time. *)
Lemma getSearchParams_not_idempotent :
  terms (getSearchParams sampleExtensions "cat" (Some IMAGES))
  = "cat ext:png ext:jpg"
  ∧ terms (getSearchParams sampleExtensions
             (terms (getSearchParams sampleExtensions "cat" (Some IMAGES)))
             (Some IMAGES))
    = "cat ext:png ext:jpg ext:png ext:jpg".
Proof. split; reflexivity. Qed.

Lemma getSearchParams_filter_appends_witness :
  terms (getSearchParams sampleExtensions "cat" (Some IMAGES))
  = "cat" +:+ " " +:+ sampleExtensions (Some IMAGES)
  ∧ terms (getSearchParams sampleExtensions
             (terms (getSearchParams sampleExtensions "cat" (Some IMAGES)))
             (Some IMAGES))
    = "cat" +:+ " " +:+ sampleExtensions (Some IMAGES)
            +:+ " " +:+ sampleExtensions (Some IMAGES)
  ∧ String.length
      (terms (getSearchParams sampleExtensions
                (terms (getSearchParams sampleExtensions "cat" (Some IMAGES)))
                (Some IMAGES)))
    > String.length
        (terms (getSearchParams sampleExtensions "cat" (Some IMAGES))).
Proof.
  apply (getSearchParams_filter_appends sampleExtensions "cat" IMAGES);
    [apply sampleExtensions_nonempty | done].
Defined.

(** C8, the claim as stated fails: "dog" is submitted after a search for
    "cat" has committed; before any fetch of the dog search has settled,
    the last searched value is "dog" while the result arrays hold the
    results for "cat". *)
Lemma lastSearchedValue_ahead_of_results :
  lastSearchedValue
    (ui (play [onChangeText "cat"; onSubmitEditing;
               searchSettled 0 catPosts catFiles;
               onChangeText "dog"; onSubmitEditing] start))
  = "dog"
  ∧ postIds (ui (play [onChangeText "cat"; onSubmitEditing;
                       searchSettled 0 catPosts catFiles;
                       onChangeText "dog"; onSubmitEditing] start))
    = ["post-cat-1"; "post-cat-2"]
  ∧ fileInfos (ui (play [onChangeText "cat"; onSubmitEditing;
                         searchSettled 0 catPosts catFiles;
                         onChangeText "dog"; onSubmitEditing] start))
    = [catPicture]
  ∧ length (inflight (play [onChangeText "cat"; onSubmitEditing;
                            searchSettled 0 catPosts catFiles;
                            onChangeText "dog"; onSubmitEditing] start))
    = 1.
Proof. repeat split. Qed.

Lemma handleSearch_sets_lastSearchedValue_first_witness :
  lastSearchedValue (ui (exec (handleSearch (ui start) "team-1" "dog") start))
  = "dog"
  ∧ postIds (ui (exec (handleSearch (ui start) "team-1" "dog") start)) = []
  ∧ inflight (exec (handleSearch (ui start) "team-1" "dog") start)
    = [AwaitSearch (ui start)].
Proof.
  destruct (handleSearch_sets_lastSearchedValue_first sampleServerUrl
              sampleExtensions (ui start) start start "team-1" "dog"
              dogPosts dogFiles)
    as (Hl & Hp & _ & _ & Hi & _); [done|].
  split; [exact Hl|]. split; [exact Hp | exact Hi].
Defined.

Lemma getSearchParams_ALL_witness :
  getSearchParams sampleExtensions "cat" (Some ALL)
  = {| terms := "cat"; is_or_search := true |}.
Proof. apply (getSearchParams_ALL sampleExtensions "cat"). reflexivity. Defined.

(** C10 on a run: four files, one without a creation time. *)
Example gallery_order_of_four_files :
  FileResults.orderedFilesForGallery sampleImageAttachments
    [undatedNote; catPicture; dogReport; oldPhoto] true
  = [dogReport; catPicture; oldPhoto; undatedNote]
  ∧ FileResults.filesForGalleryIndexes sampleImageAttachments
      [undatedNote; catPicture; dogReport; oldPhoto] true !! "file-cat"
    = Some 1
  ∧ FileResults.filesForGalleryIndexes sampleImageAttachments
      [undatedNote; catPicture; dogReport; oldPhoto] true !! "file-note"
    = Some 3.
Proof. repeat split; vm_compute; reflexivity. Qed.

End Runs.

(** ** Invariants of the search screen *)

Section ScreenInvariants.

Import SearchScreen.

Variable serverUrl : string.
Variable filterFileExtensions : option FileFilter → string.

Abbreviation getSearchParams := (getSearchParams filterFileExtensions).
Abbreviation handleSearch := (handleSearch serverUrl filterFileExtensions).
Abbreviation step := (step serverUrl filterFileExtensions).
Abbreviation play := (play serverUrl filterFileExtensions).
Abbreviation session := (session serverUrl filterFileExtensions).

Lemma exec_handleSearch_cases cl team term w :
  (truthy (terms (getSearchParams term None)) = false
   ∧ exec (handleSearch cl team term) w = exec handleCancelAndClearSearch w)
  ∨ (truthy (terms (getSearchParams term None)) = true
     ∧ ui (exec (handleSearch cl team term) w)
       = {| cursorPosition := cursorPosition (ui w);
            searchValue := searchValue (ui w);
            searchTeamId := searchTeamId (ui w);
            selectedTab := selectedTab (ui w);
            filter := ALL;
            showResults := showResults (ui w);
            loading := if showResults cl then loading (ui w) else true;
            resultsLoading :=
              if showResults cl then true else resultsLoading (ui w);
            lastSearchedValue := term;
            postIds := postIds (ui w);
            fileInfos := fileInfos (ui w);
            fileChannelIds := fileChannelIds (ui w) |}
     ∧ calls (exec (handleSearch cl team term) w)
       = calls w
         ++ [addSearchToTeamSearchHistory serverUrl team term;
             searchPosts serverUrl team (getSearchParams term None);
             searchFiles serverUrl team (getSearchParams term None)]
     ∧ inflight (exec (handleSearch cl team term) w)
       = inflight w ++ [AwaitSearch cl]).
Proof.
  destruct (truthy (terms (getSearchParams term None))) eqn:Ht.
  - right. by rewrite exec_handleSearch_truthy.
  - left. by rewrite handleSearch_falsy.
Qed.

Lemma exec_step_onSubmitEditing w :
  exec (step onSubmitEditing) w
  = exec (handleSearch (ui w) (searchTeamId (ui w)) (searchValue (ui w))) w.
Proof. reflexivity. Qed.

Lemma exec_step_setRecentValue_any text w :
  exec (step (setRecentValue text)) w
  = exec (handleSearch (ui w) (searchTeamId (ui w)) text)
      (exec (handleTextChange text) w).
Proof.
  change (exec (step (setRecentValue text)) w)
    with (exec (handleRecentSearch serverUrl filterFileExtensions
                  (ui w) text) w).
  apply exec_handleRecentSearch.
Qed.

Lemma exec_step_searchSettled_cases k postResults fileResults w :
  (∃ cl, inflight w !! k = Some (AwaitSearch cl)
         ∧ exec (step (searchSettled k postResults fileResults)) w
           = exec (handleSearch_settled cl postResults fileResults)
               {| ui := ui w; calls := calls w;
                  inflight := delete k (inflight w) |})
  ∨ exec (step (searchSettled k postResults fileResults)) w = w.
Proof.
  destruct (inflight w !! k) as [[cl|]|] eqn:Hk.
  - left. exists cl. split; [done|]. by apply exec_step_searchSettled.
  - right. unfold exec, SearchScreen.step. by rewrite Hk.
  - right. unfold exec, SearchScreen.step. by rewrite Hk.
Qed.

Lemma exec_step_filesSettled_cases k fileResults w :
  (inflight w !! k = Some AwaitFiles
   ∧ exec (step (filesSettled k fileResults)) w
     = exec (handleFilterChange_settled fileResults)
         {| ui := ui w; calls := calls w;
            inflight := delete k (inflight w) |})
  ∨ exec (step (filesSettled k fileResults)) w = w.
Proof.
  destruct (inflight w !! k) as [[cl|]|] eqn:Hk.
  - right. unfold exec, SearchScreen.step. by rewrite Hk.
  - left. split; [done|]. unfold exec, SearchScreen.step. by rewrite Hk.
  - right. unfold exec, SearchScreen.step. by rewrite Hk.
Qed.

Lemma exec_step_searchRejected_cases k w :
  (∃ cl, inflight w !! k = Some (AwaitSearch cl)
         ∧ exec (step (searchRejected k)) w
           = {| ui := ui w; calls := calls w;
                inflight := delete k (inflight w) |})
  ∨ exec (step (searchRejected k)) w = w.
Proof.
  destruct (inflight w !! k) as [[cl|]|] eqn:Hk.
  - left. exists cl. split; [done|].
    unfold exec, SearchScreen.step. by rewrite Hk.
  - right. unfold exec, SearchScreen.step. by rewrite Hk.
  - right. unfold exec, SearchScreen.step. by rewrite Hk.
Qed.

Lemma exec_step_filesRejected_cases k w :
  (inflight w !! k = Some AwaitFiles
   ∧ exec (step (filesRejected k)) w
     = {| ui := ui w; calls := calls w;
          inflight := delete k (inflight w) |})
  ∨ exec (step (filesRejected k)) w = w.
Proof.
  destruct (inflight w !! k) as [[cl|]|] eqn:Hk.
  - right. unfold exec, SearchScreen.step. by rewrite Hk.
  - left. split; [done|]. unfold exec, SearchScreen.step. by rewrite Hk.
  - right. unfold exec, SearchScreen.step. by rewrite Hk.
Qed.

Lemma header_Some s :
  is_Some (header s) ↔ lastSearchedValue s ≠ "" ∧ loading s = false.
Proof.
  unfold header. rewrite <- truthy_true_iff.
  destruct (truthy (lastSearchedValue s)), (loading s); simpl;
    split; try (intros [? ?]; done); try (intros [? [=]]); eauto.
Qed.

Lemma elem_of_delete_ne {A} (l : list A) k x y :
  x ∈ l → l !! k = Some y → x ≠ y → x ∈ delete k l.
Proof.
  revert k. induction l as [|z l IH]; intros k Hx Hk Hne; [done|].
  destruct k as [|k]; simpl in *.
  - simplify_eq. apply elem_of_cons in Hx as [-> | Hx]; done.
  - apply elem_of_cons in Hx as [-> | Hx]; [left|right; eauto].
Qed.

(** The spinner invariant: a raised loading flag is backed by a search in
    flight that will lower it. *)
Lemma search_in_flight_frame shown w w' :
  inflight w' = inflight w → search_in_flight shown w →
  search_in_flight shown w'.
Proof. unfold search_in_flight. by intros ->. Qed.

Lemma search_in_flight_app shown w w' l :
  inflight w' = inflight w ++ l → search_in_flight shown w →
  search_in_flight shown w'.
Proof.
  unfold search_in_flight. intros -> (cl & Hin & Hs).
  exists cl. split; [|done]. apply elem_of_app. by left.
Qed.

Lemma handleSearch_keeps_spinner cl team term w :
  (loading (ui w) = true → search_in_flight false w)
  ∧ (resultsLoading (ui w) = true → search_in_flight true w) →
  (loading (ui (exec (handleSearch cl team term) w)) = true →
   search_in_flight false (exec (handleSearch cl team term) w))
  ∧ (resultsLoading (ui (exec (handleSearch cl team term) w)) = true →
     search_in_flight true (exec (handleSearch cl team term) w)).
Proof.
  intros [Hl Hr].
  destruct (exec_handleSearch_cases cl team term w)
    as [[_ ->] | (_ & Hui & _ & Hin)].
  - rewrite exec_handleCancelAndClearSearch. cbn [ui loading resultsLoading].
    split; intros H; (eapply search_in_flight_frame; [|eauto]); done.
  - rewrite Hui. cbn [loading resultsLoading].
    destruct (showResults cl) eqn:Hs; split; intros H.
    + eapply search_in_flight_app; eauto.
    + exists cl. split; [|done]. rewrite Hin. apply elem_of_app. right.
      by apply list_elem_of_singleton.
    + exists cl. split; [|done]. rewrite Hin. apply elem_of_app. right.
      by apply list_elem_of_singleton.
    + eapply search_in_flight_app; eauto.
Qed.

Lemma step_keeps_spinner e w :
  search_rejected e = false →
  (loading (ui w) = true → search_in_flight false w)
  ∧ (resultsLoading (ui w) = true → search_in_flight true w) →
  (loading (ui (exec (step e) w)) = true →
   search_in_flight false (exec (step e) w))
  ∧ (resultsLoading (ui (exec (step e) w)) = true →
     search_in_flight true (exec (step e) w)).
Proof.
  intros Hres Hinv.
  destruct e as [v| |text| |tab|f|team|team|k pr fr|k fr|k|k].
  - destruct Hinv as [Hl Hr].
    split; intros H; (eapply search_in_flight_frame; [|eauto]); done.
  - rewrite exec_step_onSubmitEditing. by apply handleSearch_keeps_spinner.
  - rewrite exec_step_setRecentValue_any. apply handleSearch_keeps_spinner.
    destruct Hinv as [Hl Hr].
    split; intros H; (eapply search_in_flight_frame; [|eauto]); done.
  - destruct Hinv as [Hl Hr].
    split; intros H; (eapply search_in_flight_frame; [|eauto]); done.
  - destruct Hinv as [Hl Hr].
    split; intros H; (eapply search_in_flight_frame; [|eauto]); done.
  - destruct Hinv as [Hl Hr]. rewrite exec_step_onFilterChanged.
    rewrite exec_handleFilterChange. cbn [ui loading resultsLoading].
    split; intros H; (eapply search_in_flight_app; [|eauto]); done.
  - rewrite exec_step_setTeamId. apply handleSearch_keeps_spinner.
    destruct Hinv as [Hl Hr].
    split; intros H; (eapply search_in_flight_frame; [|eauto]); done.
  - destruct Hinv as [Hl Hr].
    split; intros H; (eapply search_in_flight_frame; [|eauto]); done.
  - destruct (exec_step_searchSettled_cases k pr fr w)
      as [(cl0 & Hk & ->) | ->]; [|done].
    destruct Hinv as [Hl Hr]. rewrite exec_handleSearch_settled.
    cbn [ui calls inflight loading resultsLoading].
    destruct (showResults cl0) eqn:Hs0; split; intros H; try done.
    + destruct (Hl H) as (cl & Hin & Hs). exists cl. split; [|done].
      cbn [inflight]. eapply elem_of_delete_ne; eauto. congruence.
    + destruct (Hr H) as (cl & Hin & Hs). exists cl. split; [|done].
      cbn [inflight]. eapply elem_of_delete_ne; eauto. congruence.
  - destruct (exec_step_filesSettled_cases k fr w) as [[Hk ->] | ->]; [|done].
    destruct Hinv as [Hl Hr]. rewrite exec_handleFilterChange_settled.
    cbn [ui calls inflight loading resultsLoading].
    split; intros H.
    + destruct (Hl H) as (cl & Hin & Hs). exists cl. split; [|done].
      cbn [inflight]. eapply elem_of_delete_ne; eauto.
    + destruct (Hr H) as (cl & Hin & Hs). exists cl. split; [|done].
      cbn [inflight]. eapply elem_of_delete_ne; eauto.
  - discriminate Hres.
  - destruct (exec_step_filesRejected_cases k w) as [[Hk ->] | ->]; [|done].
    destruct Hinv as [Hl Hr]. cbn [ui]. split; intros H.
    + destruct (Hl H) as (cl & Hin & Hs). exists cl. split; [|done].
      cbn [inflight]. eapply elem_of_delete_ne; eauto.
    + destruct (Hr H) as (cl & Hin & Hs). exists cl. split; [|done].
      cbn [inflight]. eapply elem_of_delete_ne; eauto.
Qed.

(** X1: as long as no search has its [await] throw, a spinner is never
    left without a search to end it: from the first render on, if
    [loading] is raised, a search started over the initial view is in
    flight, and if [resultsLoading] is raised, a search started over shown
    results is in flight; and when a search in flight settles, whatever
    the responses, its continuation lowers the flag of its closure. *)
Theorem spinner_backed_while_searches_settle
    (es : list Event) (teamId searchTerm : string) :
  Forall (λ e, search_rejected e = false) es →
  (loading (ui (play es (initialWorld teamId searchTerm))) = true →
   search_in_flight false (play es (initialWorld teamId searchTerm)))
  ∧ (resultsLoading (ui (play es (initialWorld teamId searchTerm))) = true →
     search_in_flight true (play es (initialWorld teamId searchTerm)))
  ∧ (∀ cl,
       AwaitSearch cl ∈ inflight (play es (initialWorld teamId searchTerm)) →
       ∃ k,
         inflight (play es (initialWorld teamId searchTerm)) !! k
         = Some (AwaitSearch cl)
         ∧ ∀ postResults fileResults,
             (if showResults cl
              then resultsLoading
                     (ui (exec (step (searchSettled k postResults
                                        fileResults))
                            (play es (initialWorld teamId searchTerm))))
              else loading
                     (ui (exec (step (searchSettled k postResults
                                        fileResults))
                            (play es (initialWorld teamId searchTerm)))))
             = false).
Proof.
  assert (Hgen : ∀ es w,
    Forall (λ e, search_rejected e = false) es →
    (loading (ui w) = true → search_in_flight false w)
    ∧ (resultsLoading (ui w) = true → search_in_flight true w) →
    (loading (ui (play es w)) = true → search_in_flight false (play es w))
    ∧ (resultsLoading (ui (play es w)) = true →
       search_in_flight true (play es w))).
  { clear es. induction es as [|e es IH]; intros w Hes Hw; [done|].
    apply Forall_cons in Hes as [He Hes].
    unfold SearchScreen.play. cbn [foldl]. apply IH; [done|].
    by apply step_keeps_spinner. }
  intros Hes.
  destruct (Hgen es (initialWorld teamId searchTerm) Hes) as [Hl Hr].
  { split; intros H; discriminate H. }
  split; [exact Hl|]. split; [exact Hr|].
  intros cl [k Hk]%list_elem_of_lookup_1. exists k. split; [exact Hk|].
  intros postResults fileResults.
  rewrite (exec_step_searchSettled _ _ k cl) by exact Hk.
  rewrite exec_handleSearch_settled. cbn [ui loading resultsLoading].
  by destruct (showResults cl).
Qed.

(** No search without terms. *)
Lemma handleSearch_searches_something cl team term w :
  Forall (λ c, searches_something c = true) (calls w) →
  Forall (λ c, searches_something c = true)
    (calls (exec (handleSearch cl team term) w)).
Proof.
  intros Hw.
  destruct (exec_handleSearch_cases cl team term w)
    as [[_ ->] | (Ht & _ & -> & _)].
  - rewrite exec_handleCancelAndClearSearch. cbn [calls].
    apply Forall_app. split; [done|]. by repeat constructor.
  - apply Forall_app. split; [done|]. by repeat constructor.
Qed.

Lemma step_searches_something e w :
  offered (ui w) e = true →
  Forall (λ c, searches_something c = true) (calls w) →
  Forall (λ c, searches_something c = true) (calls (exec (step e) w)).
Proof.
  intros Hoff Hw. destruct e as [v| |text| |tab|f|team|team|k pr fr|k fr|k|k].
  - done.
  - rewrite exec_step_onSubmitEditing.
    by apply handleSearch_searches_something.
  - rewrite exec_step_setRecentValue_any.
    by apply handleSearch_searches_something.
  - rewrite exec_step_onCancel, exec_handleCancelAndClearSearch. cbn [calls].
    apply Forall_app. split; [done|]. by repeat constructor.
  - done.
  - rewrite exec_step_onFilterChanged, exec_handleFilterChange. cbn [calls].
    apply Forall_app. split; [done|]. repeat constructor.
    cbn [searches_something]. apply truthy_append_l, truthy_true_iff.
    cbn [offered] in Hoff.
    destruct (header (ui w)) as [h|] eqn:Hh; [|done].
    by apply (header_Some (ui w)); rewrite Hh.
  - rewrite exec_step_setTeamId.
    by apply handleSearch_searches_something.
  - done.
  - destruct (exec_step_searchSettled_cases k pr fr w)
      as [(cl0 & Hk & ->) | ->]; [|done].
    rewrite exec_handleSearch_settled. cbn [calls].
    apply Forall_app. split; [done|]. by repeat constructor.
  - by destruct (exec_step_filesSettled_cases k fr w) as [[Hk ->] | ->].
  - by destruct (exec_step_searchRejected_cases k w)
      as [(cl0 & Hk & ->) | ->].
  - by destruct (exec_step_filesRejected_cases k w) as [[Hk ->] | ->].
Qed.

Lemma session_cons e es w :
  session (e :: es) w = true ↔
  offered (ui w) e = true ∧ session es (exec (step e) w) = true.
Proof. cbn [SearchScreen.session]. apply andb_true_iff. Qed.

(** X2: in a session that uses only what the screen offers (filter and
    team changes only while the results header is rendered), every call to
    the post search and to the file search carries terms that are not
    empty. *)
Theorem search_services_never_get_empty_terms
    (es : list Event) (teamId searchTerm : string) :
  session es (initialWorld teamId searchTerm) = true →
  Forall (λ c, searches_something c = true)
    (calls (play es (initialWorld teamId searchTerm))).
Proof.
  assert (Hgen : ∀ es w,
    session es w = true →
    Forall (λ c, searches_something c = true) (calls w) →
    Forall (λ c, searches_something c = true) (calls (play es w))).
  { clear es. induction es as [|e es IH]; intros w Hs Hw; [done|].
    apply session_cons in Hs as [Hoff Hs].
    unfold SearchScreen.play. cbn [foldl]. apply IH; [done|].
    by apply step_searches_something. }
  intros Hs. apply Hgen; [done | constructor].
Qed.

(** The filter and the last searched value. *)
Lemma handleSearch_filter_needs_term cl team term w :
  filter (ui (exec (handleSearch cl team term) w)) = ALL.
Proof.
  destruct (exec_handleSearch_cases cl team term w)
    as [[_ ->] | (_ & -> & _)]; done.
Qed.

Lemma step_filter_needs_term e w :
  offered (ui w) e = true →
  (filter (ui w) ≠ ALL → lastSearchedValue (ui w) ≠ "") →
  filter (ui (exec (step e) w)) ≠ ALL →
  lastSearchedValue (ui (exec (step e) w)) ≠ "".
Proof.
  intros Hoff Hw. destruct e as [v| |text| |tab|f|team|team|k pr fr|k fr|k|k].
  - exact Hw.
  - rewrite exec_step_onSubmitEditing.
    by rewrite handleSearch_filter_needs_term.
  - rewrite exec_step_setRecentValue_any.
    by rewrite handleSearch_filter_needs_term.
  - done.
  - exact Hw.
  - intros _. cbn [offered] in Hoff.
    destruct (header (ui w)) as [h|] eqn:Hh; [|done].
    by apply (header_Some (ui w)); rewrite Hh.
  - rewrite exec_step_setTeamId.
    by rewrite handleSearch_filter_needs_term.
  - exact Hw.
  - destruct (exec_step_searchSettled_cases k pr fr w)
      as [(cl0 & Hk & ->) | ->]; [|done].
    by rewrite exec_handleSearch_settled.
  - by destruct (exec_step_filesSettled_cases k fr w) as [[Hk ->] | ->].
  - by destruct (exec_step_searchRejected_cases k w)
      as [(cl0 & Hk & ->) | ->].
  - by destruct (exec_step_filesRejected_cases k w) as [[Hk ->] | ->].
Qed.

(** X3: in a session that uses only what the screen offers, a file
    filter other than ALL is only ever selected together with a last
    searched value: whenever the text is cleared or searched anew the
    filter is back at ALL. *)
Theorem filter_only_with_last_searched_value
    (es : list Event) (teamId searchTerm : string) :
  session es (initialWorld teamId searchTerm) = true →
  filter (ui (play es (initialWorld teamId searchTerm))) ≠ ALL →
  lastSearchedValue (ui (play es (initialWorld teamId searchTerm))) ≠ "".
Proof.
  assert (Hgen : ∀ es w,
    session es w = true →
    (filter (ui w) ≠ ALL → lastSearchedValue (ui w) ≠ "") →
    filter (ui (play es w)) ≠ ALL → lastSearchedValue (ui (play es w)) ≠ "").
  { clear es. induction es as [|e es IH]; intros w Hs Hw; [done|].
    apply session_cons in Hs as [Hoff Hs].
    unfold SearchScreen.play. cbn [foldl]. apply IH; [done|].
    by apply step_filter_needs_term. }
  intros Hs. apply Hgen; [done|]. intros H. by destruct H.
Qed.

(** The header and the results view. *)
Lemma handleSearch_term_shown_or_loading cl team term w :
  showResults cl = showResults (ui w) →
  (lastSearchedValue (ui w) ≠ "" →
   showResults (ui w) = true ∨ loading (ui w) = true) →
  lastSearchedValue (ui (exec (handleSearch cl team term) w)) ≠ "" →
  showResults (ui (exec (handleSearch cl team term) w)) = true
  ∨ loading (ui (exec (handleSearch cl team term) w)) = true.
Proof.
  intros Hcl Hw.
  destruct (exec_handleSearch_cases cl team term w)
    as [[_ ->] | (_ & -> & _)]; [done|].
  cbn [showResults loading lastSearchedValue]. intros _. rewrite Hcl.
  destruct (showResults (ui w)); auto.
Qed.

Lemma step_term_shown_or_loading e w :
  (lastSearchedValue (ui w) ≠ "" →
   showResults (ui w) = true ∨ loading (ui w) = true) →
  lastSearchedValue (ui (exec (step e) w)) ≠ "" →
  showResults (ui (exec (step e) w)) = true
  ∨ loading (ui (exec (step e) w)) = true.
Proof.
  intros Hw. destruct e as [v| |text| |tab|f|team|team|k pr fr|k fr|k|k].
  - exact Hw.
  - rewrite exec_step_onSubmitEditing.
    by apply handleSearch_term_shown_or_loading.
  - rewrite exec_step_setRecentValue_any.
    by apply handleSearch_term_shown_or_loading.
  - done.
  - exact Hw.
  - exact Hw.
  - rewrite exec_step_setTeamId.
    by apply handleSearch_term_shown_or_loading.
  - exact Hw.
  - destruct (exec_step_searchSettled_cases k pr fr w)
      as [(cl0 & Hk & ->) | ->]; [|done].
    rewrite exec_handleSearch_settled. cbn [ui showResults]. by left.
  - by destruct (exec_step_filesSettled_cases k fr w) as [[Hk ->] | ->].
  - by destruct (exec_step_searchRejected_cases k w)
      as [(cl0 & Hk & ->) | ->].
  - by destruct (exec_step_filesRejected_cases k w) as [[Hk ->] | ->].
Qed.

(** X4: whatever happens to the screen from its first render on, the
    results header is never rendered over the initial view or the
    spinner: when it is rendered, the list item below it is the results
    view, for the last searched value and the current result arrays. *)
Theorem header_only_over_results
    (es : list Event) (teamId searchTerm : string) :
  is_Some (header (ui (play es (initialWorld teamId searchTerm)))) →
  renderItem (ui (play es (initialWorld teamId searchTerm)))
  = resultsComponent
      (resultsLoading (ui (play es (initialWorld teamId searchTerm))))
      (selectedTab (ui (play es (initialWorld teamId searchTerm))))
      (lastSearchedValue (ui (play es (initialWorld teamId searchTerm))))
      (postIds (ui (play es (initialWorld teamId searchTerm))))
      (fileInfos (ui (play es (initialWorld teamId searchTerm))))
      (fileChannelIds (ui (play es (initialWorld teamId searchTerm)))).
Proof.
  assert (Hgen : ∀ es w,
    (lastSearchedValue (ui w) ≠ "" →
     showResults (ui w) = true ∨ loading (ui w) = true) →
    lastSearchedValue (ui (play es w)) ≠ "" →
    showResults (ui (play es w)) = true ∨ loading (ui (play es w)) = true).
  { clear es. induction es as [|e es IH]; intros w Hw; [done|].
    unfold SearchScreen.play. cbn [foldl]. apply IH.
    by apply step_term_shown_or_loading. }
  intros [Hterm Hload]%header_Some.
  destruct (Hgen es (initialWorld teamId searchTerm)) as [Hs | Hl];
    [done | done | | congruence].
  unfold renderItem. by rewrite Hload, Hs.
Qed.

(** Typing a text and submitting it. *)
Lemma exec_type_and_submit text w :
  text ≠ "" →
  play [onChangeText text; onSubmitEditing] w
  = {| ui := {| cursorPosition := js_length text;
                searchValue := text;
                searchTeamId := searchTeamId (ui w);
                selectedTab := selectedTab (ui w);
                filter := ALL;
                showResults := showResults (ui w);
                loading := if showResults (ui w) then loading (ui w) else true;
                resultsLoading :=
                  if showResults (ui w) then true else resultsLoading (ui w);
                lastSearchedValue := text;
                postIds := postIds (ui w);
                fileInfos := fileInfos (ui w);
                fileChannelIds := fileChannelIds (ui w) |};
       calls := calls w
                ++ [addSearchToTeamSearchHistory serverUrl
                      (searchTeamId (ui w)) text;
                    searchPosts serverUrl (searchTeamId (ui w))
                      (getSearchParams text None);
                    searchFiles serverUrl (searchTeamId (ui w))
                      (getSearchParams text None)];
       inflight := inflight w
                   ++ [AwaitSearch
                         {| cursorPosition := js_length text;
                            searchValue := text;
                            searchTeamId := searchTeamId (ui w);
                            selectedTab := selectedTab (ui w);
                            filter := filter (ui w);
                            showResults := showResults (ui w);
                            loading := loading (ui w);
                            resultsLoading := resultsLoading (ui w);
                            lastSearchedValue := lastSearchedValue (ui w);
                            postIds := postIds (ui w);
                            fileInfos := fileInfos (ui w);
                            fileChannelIds := fileChannelIds (ui w) |}] |}.
Proof.
  intros Ht. unfold SearchScreen.play. cbn [foldl].
  rewrite exec_step_onSubmitEditing.
  rewrite exec_handleSearch_truthy by (by apply getSearchParams_truthy).
  done.
Qed.

(** C2 (amended): a non-empty text is submitted and both fetches of the
    search resolve.  A category whose response brought no data (the data
    is missing from the response, as when the service reports a failure in
    it, or is empty) is committed as the empty array, the other category's
    data is committed as delivered, results are shown, the header is
    locked and the loading flag this search raised is lowered again. *)
Theorem handleSearch_partial_results
    (w : World) (term : string)
    (postResults : option PostSearchResult) (fileResults : FileSearchResult) :
  term ≠ "" →
  let w' := play [onChangeText term; onSubmitEditing;
                  promiseAll (length (inflight w)) (Fulfilled postResults)
                    (Fulfilled fileResults)] w in
  (files fileResults = None ∨ files fileResults = Some [] →
     fileInfos (ui w') = [])
  ∧ (channels fileResults = None ∨ channels fileResults = Some [] →
     fileChannelIds (ui w') = [])
  ∧ (postResults = None ∨ postResults ≫= order = None
     ∨ postResults ≫= order = Some [] →
     postIds (ui w') = [])
  ∧ (∀ ids, ids ≠ [] → postResults ≫= order = Some ids →
     postIds (ui w') = ids)
  ∧ (∀ fs, fs ≠ [] → files fileResults = Some fs → fileInfos (ui w') = fs)
  ∧ (∀ cs, cs ≠ [] → channels fileResults = Some cs →
     fileChannelIds (ui w') = cs)
  ∧ showResults (ui w') = true
  ∧ (if showResults (ui w) then resultsLoading (ui w') else loading (ui w'))
    = false
  ∧ inflight w' = inflight w
  ∧ calls w'
    = calls w
      ++ [addSearchToTeamSearchHistory serverUrl (searchTeamId (ui w)) term;
          searchPosts serverUrl (searchTeamId (ui w))
            (getSearchParams term None);
          searchFiles serverUrl (searchTeamId (ui w))
            (getSearchParams term None);
          hideAndLock].
Proof.
  intros Ht w'. subst w'.
  change (play [onChangeText term; onSubmitEditing;
                promiseAll (length (inflight w)) (Fulfilled postResults)
                  (Fulfilled fileResults)] w)
    with (exec (step (searchSettled (length (inflight w)) postResults
                        fileResults))
            (play [onChangeText term; onSubmitEditing] w)).
  rewrite exec_type_and_submit by done.
  erewrite exec_step_searchSettled
    by (cbn [inflight]; apply lookup_snoc_last).
  rewrite exec_handleSearch_settled.
  cbn [ui calls inflight showResults loading resultsLoading postIds
       fileInfos fileChannelIds].
  rewrite delete_snoc_last, <- app_assoc.
  split; [apply length_or_nil|]. split; [apply length_or_nil|].
  split; [intros [-> | H]; [done | by apply length_or_nil]|].
  split; [intros ids Hids ->; by apply length_or_cons|].
  split; [intros fs Hfs ->; by apply length_or_cons|].
  split; [intros cs Hcs ->; by apply length_or_cons|].
  split; [done|]. split; [by destruct (showResults (ui w))|]. done.
Qed.

(** X12: a search whose [await] throws, because one of the two promises
    rejects, is given up for good: after the submit of a non-empty text,
    nothing is committed (the screen state stays as the submit left it,
    the result arrays and [showResults] included), no further call is
    made, the search is no longer in flight, and the loading flag it
    raised stays raised. *)
Theorem rejected_search_commits_nothing
    (w : World) (term : string)
    (posts : Outcome (option PostSearchResult))
    (files : Outcome FileSearchResult) :
  term ≠ "" → posts = Rejected ∨ files = Rejected →
  ui (play [onChangeText term; onSubmitEditing;
            promiseAll (length (inflight w)) posts files] w)
  = ui (play [onChangeText term; onSubmitEditing] w)
  ∧ calls (play [onChangeText term; onSubmitEditing;
                 promiseAll (length (inflight w)) posts files] w)
    = calls (play [onChangeText term; onSubmitEditing] w)
  ∧ inflight (play [onChangeText term; onSubmitEditing;
                    promiseAll (length (inflight w)) posts files] w)
    = inflight w
  ∧ postIds (ui (play [onChangeText term; onSubmitEditing;
                       promiseAll (length (inflight w)) posts files] w))
    = postIds (ui w)
  ∧ showResults (ui (play [onChangeText term; onSubmitEditing;
                           promiseAll (length (inflight w)) posts files] w))
    = showResults (ui w)
  ∧ (if showResults (ui w)
     then resultsLoading
            (ui (play [onChangeText term; onSubmitEditing;
                       promiseAll (length (inflight w)) posts files] w))
     else loading
            (ui (play [onChangeText term; onSubmitEditing;
                       promiseAll (length (inflight w)) posts files] w)))
    = true.
Proof.
  intros Ht Hrej.
  assert (He : promiseAll (length (inflight w)) posts files
               = searchRejected (length (inflight w))).
  { destruct Hrej as [-> | ->]; [done | by destruct posts]. }
  rewrite He.
  change (play [onChangeText term; onSubmitEditing;
                searchRejected (length (inflight w))] w)
    with (exec (step (searchRejected (length (inflight w))))
            (play [onChangeText term; onSubmitEditing] w)).
  rewrite exec_type_and_submit by done.
  destruct (exec_step_searchRejected_cases (length (inflight w))
              {| ui := {| cursorPosition := js_length term;
                          searchValue := term;
                          searchTeamId := searchTeamId (ui w);
                          selectedTab := selectedTab (ui w);
                          filter := ALL;
                          showResults := showResults (ui w);
                          loading :=
                            if showResults (ui w) then loading (ui w)
                            else true;
                          resultsLoading :=
                            if showResults (ui w) then true
                            else resultsLoading (ui w);
                          lastSearchedValue := term;
                          postIds := postIds (ui w);
                          fileInfos := fileInfos (ui w);
                          fileChannelIds := fileChannelIds (ui w) |};
                 calls := calls w
                          ++ [addSearchToTeamSearchHistory serverUrl
                                (searchTeamId (ui w)) term;
                              searchPosts serverUrl (searchTeamId (ui w))
                                (getSearchParams term None);
                              searchFiles serverUrl (searchTeamId (ui w))
                                (getSearchParams term None)];
                 inflight := inflight w
                             ++ [AwaitSearch
                                   {| cursorPosition := js_length term;
                                      searchValue := term;
                                      searchTeamId := searchTeamId (ui w);
                                      selectedTab := selectedTab (ui w);
                                      filter := filter (ui w);
                                      showResults := showResults (ui w);
                                      loading := loading (ui w);
                                      resultsLoading :=
                                        resultsLoading (ui w);
                                      lastSearchedValue :=
                                        lastSearchedValue (ui w);
                                      postIds := postIds (ui w);
                                      fileInfos := fileInfos (ui w);
                                      fileChannelIds :=
                                        fileChannelIds (ui w) |}] |})
    as [(cl & Hk & ->) | Hnone].
  - cbn [ui calls inflight showResults loading resultsLoading postIds].
    rewrite delete_snoc_last.
    repeat (split; [done|]). by destruct (showResults (ui w)).
  - exfalso. revert Hnone. unfold exec, SearchScreen.step.
    cbn [inflight]. rewrite lookup_snoc_last. cbn.
    intros [=Hd]. rewrite delete_snoc_last in Hd.
    apply (f_equal length) in Hd. rewrite length_app in Hd.
    simpl in Hd. lia.
Qed.

(** X5: a second search does not replace what is on screen while it
    runs.  Over shown results, typing and submitting a text keeps the
    results view with the arrays of the search before, now under the new
    text and marked as loading, below the header; over the initial view
    the spinner takes the place of the list and the header is not
    rendered. *)
Theorem results_stay_visible_during_search (w : World) (text : string) :
  text ≠ "" → loading (ui w) = false →
  (showResults (ui w) = true →
   renderItem (ui (play [onChangeText text; onSubmitEditing] w))
   = resultsComponent true (selectedTab (ui w)) text (postIds (ui w))
       (fileInfos (ui w)) (fileChannelIds (ui w))
   ∧ header (ui (play [onChangeText text; onSubmitEditing] w))
     = Some (Header (searchTeamId (ui w)) (length (postIds (ui w)))
               (selectedTab (ui w)) (length (fileInfos (ui w))) ALL))
  ∧ (showResults (ui w) = false →
     renderItem (ui (play [onChangeText text; onSubmitEditing] w))
     = loadingComponent
     ∧ header (ui (play [onChangeText text; onSubmitEditing] w)) = None).
Proof.
  intros Ht Hl. rewrite exec_type_and_submit by done.
  unfold renderItem, header. cbn [ui loading showResults resultsLoading
    lastSearchedValue selectedTab postIds fileInfos fileChannelIds
    searchTeamId filter].
  apply truthy_true_iff in Ht.
  split; intros Hs; rewrite Hs; [rewrite Hl, Ht | rewrite Ht]; done.
Qed.

(** X6: the loading flags are booleans shared by all searches in flight.
    When two texts are submitted one after the other and the first search
    settles, the flag both had raised is lowered and the first search's
    results are committed under the second text, although the second
    search is still in flight. *)
Theorem first_settled_search_lowers_shared_flag
    (w0 : World) (t1 t2 : string)
    (postResults : option PostSearchResult) (fileResults : FileSearchResult) :
  t1 ≠ "" → t2 ≠ "" →
  let w := play [onChangeText t1; onSubmitEditing;
                 onChangeText t2; onSubmitEditing;
                 searchSettled (length (inflight w0)) postResults
                   fileResults] w0 in
  (if showResults (ui w0) then resultsLoading (ui w) else loading (ui w))
  = false
  ∧ showResults (ui w) = true
  ∧ lastSearchedValue (ui w) = t2
  ∧ postIds (ui w) = length_or (postResults ≫= order) []
  ∧ fileInfos (ui w) = length_or (files fileResults) []
  ∧ length (inflight w) = S (length (inflight w0))
  ∧ ∃ cl, inflight w !! length (inflight w0) = Some (AwaitSearch cl).
Proof.
  intros Ht1 Ht2 w. subst w.
  change (play [onChangeText t1; onSubmitEditing; onChangeText t2;
                onSubmitEditing;
                searchSettled (length (inflight w0)) postResults fileResults]
            w0)
    with (exec (step (searchSettled (length (inflight w0)) postResults
                        fileResults))
            (play [onChangeText t2; onSubmitEditing]
               (play [onChangeText t1; onSubmitEditing] w0))).
  rewrite (exec_type_and_submit t1) by done.
  rewrite (exec_type_and_submit t2) by done.
  cbn [ui calls inflight showResults loading resultsLoading searchTeamId
       selectedTab postIds fileInfos fileChannelIds].
  erewrite exec_step_searchSettled; cycle 1.
  { cbn [inflight]. rewrite <- app_assoc. cbn [app].
    apply list_lookup_middle. done. }
  rewrite exec_handleSearch_settled.
  cbn [ui calls inflight showResults loading resultsLoading
       lastSearchedValue postIds fileInfos].
  rewrite <- app_assoc. cbn [app].
  rewrite (delete_middle (inflight w0)).
  split; [by destruct (showResults (ui w0))|].
  split; [done|]. split; [done|]. split; [done|]. split; [done|].
  split; [rewrite length_app; simpl; lia|].
  eexists. apply lookup_snoc_last.
Qed.

(** X7: cancel does not stop a search in flight.  When the search
    settles after the cancel, its results are committed and shown again,
    with an empty search text and an empty last searched value, so
    without the results header. *)
Theorem cancel_does_not_stop_search_in_flight
    (w : World) (k : nat) (cl : Screen)
    (postResults : option PostSearchResult) (fileResults : FileSearchResult) :
  inflight w !! k = Some (AwaitSearch cl) →
  let w' := play [onCancel; searchSettled k postResults fileResults] w in
  showResults (ui w') = true
  ∧ searchValue (ui w') = ""
  ∧ lastSearchedValue (ui w') = ""
  ∧ postIds (ui w') = length_or (postResults ≫= order) []
  ∧ fileInfos (ui w') = length_or (files fileResults) []
  ∧ fileChannelIds (ui w') = length_or (channels fileResults) []
  ∧ header (ui w') = None
  ∧ (loading (ui w') = false →
     renderItem (ui w')
     = resultsComponent (resultsLoading (ui w')) (selectedTab (ui w)) ""
         (length_or (postResults ≫= order) [])
         (length_or (files fileResults) [])
         (length_or (channels fileResults) [])).
Proof.
  intros Hk w'. subst w'. unfold SearchScreen.play. cbn [foldl].
  rewrite exec_step_onCancel, exec_handleCancelAndClearSearch.
  erewrite exec_step_searchSettled by (cbn [inflight]; exact Hk).
  rewrite exec_handleSearch_settled.
  cbn [ui calls inflight showResults loading resultsLoading searchValue
       lastSearchedValue postIds fileInfos fileChannelIds selectedTab].
  repeat (split; [done|]).
  intros Hl. unfold renderItem.
  cbn [showResults loading resultsLoading lastSearchedValue postIds
       fileInfos fileChannelIds selectedTab].
  by rewrite Hl.
Qed.

End ScreenInvariants.

(** ** More on the gallery order and the maps of the file results pane *)

Section GalleryOrder.

Import FileResults.

Lemma sort_insert_same_time (t : Z) x l :
  filter (λ f, or_zero (create_at f) = t) (sort_insert compareFn x l)
  = filter (λ f, or_zero (create_at f) = t) (x :: l).
Proof.
  induction l as [|y l IH]; [done|]. cbn [sort_insert].
  destruct (Z.leb_spec (compareFn x y) 0) as [Hle | Hgt]; [done|].
  unfold compareFn in Hgt.
  rewrite (filter_cons _ y), IH, !(filter_cons _ x), (filter_cons _ y).
  repeat case_decide; try done; lia.
Qed.

Lemma sort_same_time (t : Z) l :
  filter (λ f, or_zero (create_at f) = t) (sort compareFn l)
  = filter (λ f, or_zero (create_at f) = t) l.
Proof.
  induction l as [|x l IH]; [done|].
  cbn [sort foldr]. fold (sort compareFn l).
  by rewrite sort_insert_same_time, !(filter_cons _ x), IH.
Qed.

Lemma sort_newest_first_id l : newest_first l → sort compareFn l = l.
Proof.
  induction 1 as [|x l Hsorted IH Hx]; [done|].
  cbn [sort foldr]. fold (sort compareFn l). rewrite IH.
  destruct Hx as [|y l Hy _]; [done|]. cbn [sort_insert].
  destruct (Z.leb_spec (compareFn x y) 0) as [Hle | Hgt]; [done|].
  unfold compareFn in Hgt. lia.
Qed.

Lemma reduce_from_channel_names (l : list ChannelModel.t) idx acc k :
  reduce_from
    (λ (acc : gmap string string) (v : ChannelModel.t) (_ : nat),
       object_set (ChannelModel.id v) (ChannelModel.displayName v) acc)
    l idx acc !! k
  = match last (filter (λ c, ChannelModel.id c = k) l) with
    | Some c =>
        if decide (k = "__proto__") then acc !! k
        else Some (ChannelModel.displayName c)
    | None => acc !! k
    end.
Proof.
  revert idx acc. induction l as [|v l IH]; intros idx acc; [done|].
  cbn [reduce_from]. rewrite IH, filter_cons, !object_set_lookup.
  destruct (decide (ChannelModel.id v = k)) as [Hv | Hv].
  - rewrite last_cons.
    destruct (last (filter (λ c, ChannelModel.id c = k) l));
      destruct (decide (k = "__proto__")) as [Hp | Hp]; try done.
    + rewrite decide_False; [done|]. by intros [_ ?].
    + rewrite decide_False; [done|]. by intros [_ ?].
    + by rewrite decide_True.
  - destruct (last (filter (λ c, ChannelModel.id c = k) l));
      destruct (decide (k = "__proto__")) as [Hp | Hp]; try done;
      (rewrite decide_False; [done|]); by intros [? _].
Qed.

Section WithAttachments.

Variable useImageAttachments :
  list FileInfo → bool → list FileInfo * list FileInfo.

Abbreviation filesForGallery := (filesForGallery useImageAttachments).
Abbreviation orderedFilesForGallery :=
  (orderedFilesForGallery useImageAttachments).
Abbreviation filesForGalleryIndexes :=
  (filesForGalleryIndexes useImageAttachments).

(** X8: the gallery order is stable: the files that share a creation
    time (a missing one counting as 0) come in the gallery in the order
    they have among the attachments, images before the others. *)
Theorem gallery_order_is_stable
    (fileInfos : list FileInfo) (publicLinkEnabled : bool) (t : Z) :
  filter (λ f, or_zero (create_at f) = t)
    (orderedFilesForGallery fileInfos publicLinkEnabled)
  = filter (λ f, or_zero (create_at f) = t)
      (imageAttachments useImageAttachments fileInfos publicLinkEnabled)
    ++ filter (λ f, or_zero (create_at f) = t)
         (nonImageAttachments useImageAttachments fileInfos
            publicLinkEnabled).
Proof.
  unfold FileResults.orderedFilesForGallery, FileResults.filesForGallery.
  by rewrite sort_same_time, filter_app.
Qed.

(** X9: attachments that already come newest first are left in their
    order: the gallery sequence is the images followed by the others,
    unchanged. *)
Theorem gallery_keeps_newest_first_attachments
    (fileInfos : list FileInfo) (publicLinkEnabled : bool) :
  newest_first (filesForGallery fileInfos publicLinkEnabled) →
  orderedFilesForGallery fileInfos publicLinkEnabled
  = imageAttachments useImageAttachments fileInfos publicLinkEnabled
    ++ nonImageAttachments useImageAttachments fileInfos publicLinkEnabled.
Proof. apply sort_newest_first_id. Qed.

(** X10: the index map has an entry exactly for the ids that occur in
    the gallery sequence and are neither empty nor ["__proto__"], and
    every entry is a valid position of it: an id that no gallery file
    carries, the empty id and ["__proto__"] have no entry. *)
Theorem gallery_indexes_domain
    (fileInfos : list FileInfo) (publicLinkEnabled : bool) (k : string) :
  (is_Some (filesForGalleryIndexes fileInfos publicLinkEnabled !! k)
   ↔ k ≠ "" ∧ k ≠ "__proto__"
     ∧ ∃ v, v ∈ orderedFilesForGallery fileInfos publicLinkEnabled
            ∧ id v = Some k)
  ∧ (∀ j, filesForGalleryIndexes fileInfos publicLinkEnabled !! k = Some j →
          j < length (orderedFilesForGallery fileInfos publicLinkEnabled)).
Proof.
  assert (Hsound : ∀ j,
    filesForGalleryIndexes fileInfos publicLinkEnabled !! k = Some j →
    ∃ v, orderedFilesForGallery fileInfos publicLinkEnabled !! j = Some v
         ∧ id v = Some k).
  { intros j Hj. apply reduce_from_lookup_sound in Hj.
    destruct Hj as [Hempty | (_ & v & Hv & Hid)]; [done|].
    exists v. by rewrite Nat.sub_0_r in Hv. }
  split; [split|].
  - intros [j Hj]. split; [|split].
    + intros ->.
      unfold FileResults.filesForGalleryIndexes, reduce in Hj.
      by rewrite reduce_from_lookup_unset in Hj by (by left).
    + intros ->.
      unfold FileResults.filesForGalleryIndexes, reduce in Hj.
      by rewrite reduce_from_lookup_unset in Hj by (by right).
    + destruct (Hsound j Hj) as (v & Hv & Hid). exists v. split; [|done].
      by eapply list_elem_of_lookup_2.
  - intros (Hk & Hp & v & [i Hi]%list_elem_of_lookup_1 & Hid).
    destruct (reduce_from_lookup_complete
                (orderedFilesForGallery fileInfos publicLinkEnabled)
                0 ∅ k i v Hi Hid Hk Hp) as (j & Hj & _).
    by exists j.
  - intros j Hj. destruct (Hsound j Hj) as (v & Hv & _).
    by eapply lookup_lt_Some.
Qed.

End WithAttachments.

(** X11: [channelNames] holds, under each channel id other than
    ["__proto__"], the display name of the last channel of the list with
    that id, and nothing under an id that no channel of the list has, nor
    under ["__proto__"]. *)
Theorem channelNames_lookup (fileChannels : list ChannelModel.t) (k : string) :
  channelNames fileChannels !! k
  = if decide (k = "__proto__") then None
    else ChannelModel.displayName
           <$> last (filter (λ c, ChannelModel.id c = k) fileChannels).
Proof.
  unfold channelNames, reduce. rewrite reduce_from_channel_names.
  destruct (last (filter (λ c, ChannelModel.id c = k) fileChannels));
    by destruct (decide (k = "__proto__")).
Qed.

End GalleryOrder.

(** ** The further properties on concrete inputs *)

Section MoreRuns.

Import SearchScreen.

Abbreviation play := (play sampleServerUrl sampleExtensions).
Abbreviation session := (session sampleServerUrl sampleExtensions).
Abbreviation start := (initialWorld "team-1" "").

Lemma search_services_never_get_empty_terms_witness :
  Forall (λ c, searches_something c = true)
    (calls (play [onChangeText "cat"; onSubmitEditing;
                  searchSettled 0 catPosts catFiles;
                  onFilterChanged IMAGES; filesSettled 0 catFiles;
                  setTeamId "team-2"] start)).
Proof.
  apply (search_services_never_get_empty_terms sampleServerUrl
           sampleExtensions
           [onChangeText "cat"; onSubmitEditing;
            searchSettled 0 catPosts catFiles;
            onFilterChanged IMAGES; filesSettled 0 catFiles;
            setTeamId "team-2"] "team-1" "").
  reflexivity.
Defined.

Lemma filter_only_with_last_searched_value_witness :
  lastSearchedValue
    (ui (play [onChangeText "cat"; onSubmitEditing;
               searchSettled 0 catPosts catFiles;
               onFilterChanged IMAGES] start))
  ≠ "".
Proof.
  apply (filter_only_with_last_searched_value sampleServerUrl
           sampleExtensions
           [onChangeText "cat"; onSubmitEditing;
            searchSettled 0 catPosts catFiles;
            onFilterChanged IMAGES] "team-1" "").
  - reflexivity.
  - intros H. vm_compute in H. discriminate H.
Defined.

Lemma header_only_over_results_witness :
  renderItem (ui (play [onChangeText "cat"; onSubmitEditing;
                        searchSettled 0 catPosts catFiles] start))
  = resultsComponent false MESSAGES "cat" ["post-cat-1"; "post-cat-2"]
      [catPicture] ["channel-1"].
Proof.
  apply (header_only_over_results sampleServerUrl sampleExtensions
           [onChangeText "cat"; onSubmitEditing;
            searchSettled 0 catPosts catFiles] "team-1" "").
  vm_compute. eauto.
Defined.

Lemma results_stay_visible_during_search_witness :
  renderItem
    (ui (play [onChangeText "dog"; onSubmitEditing]
           (play [onChangeText "cat"; onSubmitEditing;
                  searchSettled 0 catPosts catFiles] start)))
  = resultsComponent true MESSAGES "dog" ["post-cat-1"; "post-cat-2"]
      [catPicture] ["channel-1"]
  ∧ renderItem (ui (play [onChangeText "dog"; onSubmitEditing] start))
    = loadingComponent.
Proof.
  split.
  - apply (results_stay_visible_during_search sampleServerUrl
             sampleExtensions
             (play [onChangeText "cat"; onSubmitEditing;
                    searchSettled 0 catPosts catFiles] start) "dog");
      done.
  - apply (results_stay_visible_during_search sampleServerUrl
             sampleExtensions start "dog"); done.
Defined.

Lemma first_settled_search_lowers_shared_flag_witness :
  let w := play [onChangeText "cat"; onSubmitEditing;
                 onChangeText "dog"; onSubmitEditing;
                 searchSettled 0 catPosts catFiles] start in
  loading (ui w) = false
  ∧ showResults (ui w) = true
  ∧ lastSearchedValue (ui w) = "dog"
  ∧ postIds (ui w) = ["post-cat-1"; "post-cat-2"]
  ∧ length (inflight w) = 1.
Proof.
  destruct (first_settled_search_lowers_shared_flag sampleServerUrl
              sampleExtensions start "cat" "dog" catPosts catFiles)
    as (Hl & Hs & Ht & Hp & _ & Hn & _); [done | done |].
  split; [exact Hl|]. split; [exact Hs|]. split; [exact Ht|].
  split; [exact Hp | exact Hn].
Defined.

Lemma cancel_does_not_stop_search_in_flight_witness :
  let w' := play [onCancel; searchSettled 0 catPosts catFiles]
              (play [onChangeText "cat"; onSubmitEditing] start) in
  showResults (ui w') = true
  ∧ searchValue (ui w') = ""
  ∧ lastSearchedValue (ui w') = ""
  ∧ postIds (ui w') = ["post-cat-1"; "post-cat-2"]
  ∧ header (ui w') = None.
Proof.
  destruct (cancel_does_not_stop_search_in_flight sampleServerUrl
              sampleExtensions
              (play [onChangeText "cat"; onSubmitEditing] start) 0
              (ui (play [onChangeText "cat"] start)) catPosts catFiles)
    as (Hs & Hv & Hl & Hp & _ & _ & Hh & _); [reflexivity|].
  split; [exact Hs|]. split; [exact Hv|]. split; [exact Hl|].
  split; [exact Hp | exact Hh].
Defined.

Lemma gallery_keeps_newest_first_attachments_witness :
  FileResults.orderedFilesForGallery sampleImageAttachments
    [undatedNote; catPicture; oldPhoto] true
  = [catPicture; oldPhoto; undatedNote].
Proof.
  apply (gallery_keeps_newest_first_attachments sampleImageAttachments
           [undatedNote; catPicture; oldPhoto] true).
  unfold FileResults.newest_first. repeat constructor; by vm_compute.
Defined.

(** C2, the claim as stated fails: "cat" is submitted, the post search
    delivers its posts and the file search rejects.  The [await] throws:
    no post is committed, results are not shown, the header is not locked,
    and the spinner stays with no search left in flight. *)
Lemma rejected_fetch_aborts_search :
  postIds (ui (play [onChangeText "cat"; onSubmitEditing;
                     promiseAll 0 (Fulfilled catPosts) Rejected] start))
  = []
  ∧ showResults (ui (play [onChangeText "cat"; onSubmitEditing;
                           promiseAll 0 (Fulfilled catPosts) Rejected]
                       start))
    = false
  ∧ loading (ui (play [onChangeText "cat"; onSubmitEditing;
                       promiseAll 0 (Fulfilled catPosts) Rejected] start))
    = true
  ∧ inflight (play [onChangeText "cat"; onSubmitEditing;
                    promiseAll 0 (Fulfilled catPosts) Rejected] start)
    = []
  ∧ calls (play [onChangeText "cat"; onSubmitEditing;
                 promiseAll 0 (Fulfilled catPosts) Rejected] start)
    = [addSearchToTeamSearchHistory sampleServerUrl "team-1" "cat";
       searchPosts sampleServerUrl "team-1"
         {| terms := "cat"; is_or_search := true |};
       searchFiles sampleServerUrl "team-1"
         {| terms := "cat"; is_or_search := true |}].
Proof. repeat split. Qed.

Lemma handleSearch_partial_results_witness :
  let w' := play [onChangeText "cat"; onSubmitEditing;
                  promiseAll 0 (Fulfilled catPosts) (Fulfilled failedFiles)]
              start in
  fileInfos (ui w') = []
  ∧ fileChannelIds (ui w') = []
  ∧ postIds (ui w') = ["post-cat-1"; "post-cat-2"]
  ∧ showResults (ui w') = true
  ∧ loading (ui w') = false
  ∧ inflight w' = [].
Proof.
  destruct (handleSearch_partial_results sampleServerUrl sampleExtensions
              start "cat" catPosts failedFiles)
    as (Hf & Hc & _ & Hp & _ & _ & Hs & Hl & Hi & _); [done|].
  split; [apply Hf; by left|].
  split; [apply Hc; by left|].
  split; [by apply Hp|].
  split; [exact Hs|]. split; [exact Hl | exact Hi].
Defined.

Lemma spinner_backed_while_searches_settle_witness :
  loading (ui (play [onChangeText "cat"; onSubmitEditing] start)) = true
  ∧ search_in_flight false (play [onChangeText "cat"; onSubmitEditing] start).
Proof.
  destruct (spinner_backed_while_searches_settle sampleServerUrl
              sampleExtensions [onChangeText "cat"; onSubmitEditing]
              "team-1" "")
    as (Hl & _ & _); [by repeat constructor|].
  split; [reflexivity | by apply Hl].
Defined.

Lemma rejected_search_commits_nothing_witness :
  let w := play [onChangeText "cat"; onSubmitEditing;
                 searchSettled 0 catPosts catFiles] start in
  let w' := play [onChangeText "dog"; onSubmitEditing;
                  promiseAll 0 (Fulfilled dogPosts) Rejected] w in
  postIds (ui w') = ["post-cat-1"; "post-cat-2"]
  ∧ showResults (ui w') = true
  ∧ resultsLoading (ui w') = true
  ∧ inflight w' = [].
Proof.
  destruct (rejected_search_commits_nothing sampleServerUrl sampleExtensions
              (play [onChangeText "cat"; onSubmitEditing;
                     searchSettled 0 catPosts catFiles] start)
              "dog" (Fulfilled dogPosts) Rejected)
    as (_ & _ & Hi & Hp & Hs & Hl); [done | by right |].
  split; [exact Hp|]. split; [exact Hs|]. split; [exact Hl | exact Hi].
Defined.

(** C10, the claim as stated fails: a file whose id is ["__proto__"] is in
    the gallery sequence, at position 1, and the index map has no entry
    for its id. *)
Lemma proto_id_gets_no_index :
  FileResults.orderedFilesForGallery sampleImageAttachments
    [protoFile; catPicture] true
  = [catPicture; protoFile]
  ∧ id protoFile = Some "__proto__"
  ∧ FileResults.filesForGalleryIndexes sampleImageAttachments
      [protoFile; catPicture] true !! "__proto__"
    = None
  ∧ FileResults.filesForGalleryIndexes sampleImageAttachments
      [protoFile; catPicture] true !! "file-cat"
    = Some 0.
Proof. repeat split; vm_compute; reflexivity. Qed.

(** X11 on a run: two channels share an id, one has the id
    ["__proto__"]. *)
Example channelNames_of_three_channels :
  FileResults.channelNames
    [FileResults.ChannelModel.mk "channel-1" "Town Square";
     FileResults.ChannelModel.mk "__proto__" "Proto";
     FileResults.ChannelModel.mk "channel-1" "Off-Topic"] !! "channel-1"
  = Some "Off-Topic"
  ∧ FileResults.channelNames
      [FileResults.ChannelModel.mk "channel-1" "Town Square";
       FileResults.ChannelModel.mk "__proto__" "Proto";
       FileResults.ChannelModel.mk "channel-1" "Off-Topic"] !! "__proto__"
    = None.
Proof. split; vm_compute; reflexivity. Qed.

End MoreRuns.
